(** * gitlint.git: which files and lines a change touches

    A shallow embedding of [gitlint/git.py].  The functions of the
    module ask [git] for text and parse it; here the external process is a
    function from the invocation to its outcome, every invocation is
    logged, and a Python exception is a value of the result type.

    Conventions.
    - A Python [bytes] value is a [string] (a list of 8-bit characters).
      A Python [str] is represented by its UTF-8 encoding, so
      [decode('utf-8')] checks well-formedness and [encode('utf-8')] is the
      identity; the characters the code inspects (quote, slash, newline,
      space, tab) are ASCII and occupy one byte in that encoding.
    - [None] is [None] of an option type.
    - The platform is POSIX: [os.linesep] is the line feed and [os.path]
      is [posixpath]. *)

From Stdlib Require Import ZArith String Ascii List Sorted Lia.
From stdpp Require Import gmap strings list.

Open Scope string_scope.
Open Scope list_scope.

Abbreviation bytes := string (only parsing).
Abbreviation str := string (only parsing).

(** ** Python built-ins used by the module *)

Module Py.

(** [s.startswith(p)] *)
Definition startswith (p s : string) : bool := String.prefix p s.

(** [s.endswith(p)] *)
Fixpoint endswith (p s : string) : bool :=
  String.eqb s p ||
  match s with
  | EmptyString => false
  | String _ s' => endswith p s'
  end.

(** [s[1:-1]] *)
Definition slice_1_m1 (s : string) : string :=
  substring 1 (String.length s - 2) s.

(** The characters [bytes.strip()] removes: space, tab, line feed,
    carriage return, vertical tab, form feed. *)
Definition is_bytes_space (a : ascii) : bool :=
  let n := N_of_ascii a in
  (n =? 32)%N || ((9 <=? n)%N && (n <=? 13)%N).

Fixpoint lstrip (s : string) : string :=
  match s with
  | String a s' => if is_bytes_space a then lstrip s' else s
  | EmptyString => EmptyString
  end.

Fixpoint rstrip (s : string) : string :=
  match s with
  | String a s' =>
      match rstrip s' with
      | EmptyString => if is_bytes_space a then EmptyString else String a EmptyString
      | r => String a r
      end
  | EmptyString => EmptyString
  end.

(** [b.strip()] *)
Definition strip (s : bytes) : bytes := rstrip (lstrip s).

(** [s.split(sep)] for a one-character separator; the result is never
    empty: [''.split(sep)] is [['']]. *)
Fixpoint split (sep : ascii) (s : string) : list string :=
  match s with
  | EmptyString => [EmptyString]
  | String a s' =>
      if Ascii.eqb a sep then EmptyString :: split sep s'
      else match split sep s' with
           | h :: t => String a h :: t
           | [] => [String a EmptyString]
           end
  end.

(** Well-formed UTF-8 (no overlong form, no surrogate, nothing above
    U+10FFFF), as the strict decoder accepts it. *)
Definition cont (a : ascii) : bool :=
  let n := N_of_ascii a in (128 <=? n)%N && (n <=? 191)%N.

Definition between (lo hi : N) (a : ascii) : bool :=
  let n := N_of_ascii a in (lo <=? n)%N && (n <=? hi)%N.

Fixpoint utf8_valid (s : string) : bool :=
  match s with
  | EmptyString => true
  | String a r =>
      if between 0 127 a then utf8_valid r
      else if between 194 223 a then
        match r with
        | String b r1 => cont b && utf8_valid r1
        | _ => false
        end
      else if between 224 239 a then
        match r with
        | String b (String c r2) =>
            (if between 224 224 a then between 160 191 b
             else if between 237 237 a then between 128 159 b
             else cont b)
            && cont c && utf8_valid r2
        | _ => false
        end
      else if between 240 244 a then
        match r with
        | String b (String c (String d r3)) =>
            (if between 240 240 a then between 144 191 b
             else if between 244 244 a then between 128 143 b
             else cont b)
            && cont c && cont d && utf8_valid r3
        | _ => false
        end
      else false
  end.

(** ASCII decimal digits, the class [\d] of a bytes pattern. *)
Definition is_digit (a : ascii) : bool := between 48 57 a.

Definition digit_value (a : ascii) : Z := Z.of_N (N_of_ascii a) - 48.

(** The value of a string of decimal digits, most significant first. *)
Definition decimal (s : string) : Z :=
  fold_left (fun acc a => (10 * acc + digit_value a)%Z)
    (list_ascii_of_string s) 0%Z.

(** The longest run of digits [int] converts: beyond
    [sys.int_info.default_max_str_digits] it raises [ValueError]. *)
Definition max_str_digits : nat := 4300.

(** POSIX [os.linesep]. *)
Definition linesep : ascii := "010"%char.

(** [posixpath.isabs] *)
Definition isabs (s : str) : bool := startswith "/" s.

(** [posixpath.join(a, b)] *)
Definition join (a b : str) : str :=
  if startswith "/" b then b
  else if String.eqb a "" || endswith "/" a then a +:+ b
  else a +:+ "/" +:+ b.

End Py.

(** ** Exceptions, results and the log of invocations *)

Inductive exn :=
| CalledProcessError (returncode : Z) (output : bytes)
| FileNotFoundError
| UnicodeDecodeError
| AssertionError (msg : str)
| TypeError
| ValueError.

Inductive res (A : Type) :=
| Ok (a : A)
| Raise (e : exn).
Arguments Ok {A} a.
Arguments Raise {A} e.

(** One [subprocess.check_output] call: the argument vector and whether
    [stderr=subprocess.STDOUT] was passed. *)
Record call := Call { argv : list string; stderr_to_stdout : bool }.

#[global] Instance call_eq_dec : EqDecision call.
Proof. solve_decision. Defined.

(** What running a command comes to: the process ran and exited with a
    return code and its captured output, or the executable was not found. *)
Inductive proc :=
| Exited (returncode : Z) (output : bytes)
| NotFound.

(** A computation yields a value or an exception, and the calls it made. *)
Definition M (A : Type) : Type := res A * list call.

#[global] Instance M_ret : MRet M := fun A a => (Ok a, []).
#[global] Instance M_bind : MBind M := fun A B f m =>
  match m with
  | (Ok a, log) => let '(r, log') := f a in (r, log ++ log')
  | (Raise e, log) => (Raise e, log)
  end.

Definition raise {A} (e : exn) : M A := (Raise e, []).

Definition result {A} (m : M A) : res A := fst m.
Definition calls {A} (m : M A) : list call := snd m.

(** [try: body  except subprocess.CalledProcessError: handler] *)
Definition try_except_CalledProcessError {A} (body handler : M A) : M A :=
  match body with
  | (Raise (CalledProcessError _ _), log) =>
      let '(r, log') := handler in (r, log ++ log')
  | other => other
  end.

(** [for x in xs: s = body(s, x)] *)
Fixpoint for_in {A S} (xs : list A) (body : S -> A -> M S) (s : S) : M S :=
  match xs with
  | [] => mret s
  | x :: xs' => s' ← body s x; for_in xs' body s'
  end.

(** [assert cond, msg] *)
Definition assert (cond : bool) (msg : str) : M unit :=
  if cond then mret tt else raise (AssertionError msg).

(** [b.decode('utf-8')] *)
Definition decode_utf8 (b : bytes) : M str :=
  if Py.utf8_valid b then mret b else raise UnicodeDecodeError.

(** [int(b)] on what [\d+] captures: a run of digits, leading zeros
    counted, of at most [Py.max_str_digits] characters.  Python's [int]
    also reads a sign, surrounding blanks and underscores; none of them is
    a digit, and here they are a [ValueError] like any other character. *)
Definition int (b : bytes) : M Z :=
  match b with
  | EmptyString => raise ValueError
  | _ => if forallb Py.is_digit (list_ascii_of_string b)
         then if Nat.leb (String.length b) Py.max_str_digits
              then mret (Py.decimal b)
              else raise ValueError
         else raise ValueError
  end.

(** ** Regular expressions

    The fragment of Python's [re] the module's three patterns are written
    in, matched the way [re] does: leftmost alternative first, [+] greedy,
    with backtracking. *)

Module Re.

Inductive cclass :=
| Lit (a : ascii)   (* the character itself *)
| Any               (* [.]: anything but a line feed *)
| Digit             (* [\d] of a bytes pattern: 0-9 *)
| Space.            (* [\s] of a str pattern, its ASCII members *)

Definition is_space (a : ascii) : bool :=
  let n := N_of_ascii a in
  (n =? 32)%N || ((9 <=? n)%N && (n <=? 13)%N) || ((28 <=? n)%N && (n <=? 31)%N).

Definition in_class (c : cclass) (a : ascii) : bool :=
  match c with
  | Lit b => Ascii.eqb a b
  | Any => negb (Ascii.eqb a "010")
  | Digit => Py.is_digit a
  | Space => is_space a
  end.

Inductive regex :=
| Eps
| Chr (c : cclass)
| Plus (c : cclass)                 (* [c+] *)
| Seq (r1 r2 : regex)
| Alt (r1 r2 : regex)               (* [r1|r2] *)
| Group (name : string) (r : regex) (* [(?P<name>r)] *).

(** The text of a pattern without special characters. *)
Fixpoint literal (s : string) : regex :=
  match s with
  | EmptyString => Eps
  | String a s' => Seq (Chr (Lit a)) (literal s')
  end.

(** ['|'.join(alternatives)] *)
Fixpoint any_of (rs : list regex) : regex :=
  match rs with
  | [] => Eps
  | [r] => r
  | r :: rs' => Alt r (any_of rs')
  end.

(** Named groups and the text each matched, the latest first. *)
Definition captures := list (string * string).

Fixpoint group (g : captures) (name : string) : option string :=
  match g with
  | [] => None
  | (n, v) :: g' => if String.eqb n name then Some v else group g' name
  end.

Section Matcher.
Context {A : Type}.

(** A continuation receives the text just matched, the rest of the
    subject and the groups so far. *)
Definition cont := string -> string -> captures -> option A.

(** [c+] from [s], [acc] being what the loop has taken already: take one
    more character, prefer going on, and fall back to stopping here. *)
Fixpoint plus (c : cclass) (s acc : string) (g : captures) (k : cont)
  : option A :=
  match s with
  | String a s' =>
      if in_class c a then
        let acc' := acc +:+ String a EmptyString in
        match plus c s' acc' g k with
        | Some x => Some x
        | None => k acc' s' g
        end
      else None
  | EmptyString => None
  end.

Fixpoint run (r : regex) (s : string) (g : captures) (k : cont)
  : option A :=
  match r with
  | Eps => k EmptyString s g
  | Chr c =>
      match s with
      | String a s' =>
          if in_class c a then k (String a EmptyString) s' g else None
      | EmptyString => None
      end
  | Plus c => plus c s EmptyString g k
  | Seq r1 r2 =>
      run r1 s g (fun m1 s1 g1 =>
      run r2 s1 g1 (fun m2 s2 g2 => k (m1 +:+ m2) s2 g2))
  | Alt r1 r2 =>
      match run r1 s g k with
      | Some x => Some x
      | None => run r2 s g k
      end
  | Group n r => run r s g (fun m s' g' => k m s' ((n, m) :: g'))
  end.
End Matcher.

(** [pattern.match(s)]: a match starting at the first character. *)
Definition match_ (r : regex) (s : string) : option captures :=
  run r s [] (fun _ _ g => Some g).

(** [pattern.search(s)]: the leftmost position with a match. *)
Fixpoint search (r : regex) (s : string) : option captures :=
  match match_ r s with
  | Some g => Some g
  | None =>
      match s with
      | String _ s' => search r s'
      | EmptyString => None
      end
  end.

(** What a match is, apart from the order in which the matcher looks for
    one: [matches r m g g'] when [r] can match the text [m] and turns the
    groups [g] into [g']. *)
Inductive matches : regex -> string -> captures -> captures -> Prop :=
| matches_Eps g : matches Eps EmptyString g g
| matches_Chr c a g :
    in_class c a = true -> matches (Chr c) (String a EmptyString) g g
| matches_Plus c m g :
    m ≠ EmptyString ->
    forallb (in_class c) (list_ascii_of_string m) = true ->
    matches (Plus c) m g g
| matches_Seq r1 r2 m1 m2 g g1 g2 :
    matches r1 m1 g g1 -> matches r2 m2 g1 g2 ->
    matches (Seq r1 r2) (m1 +:+ m2) g g2
| matches_Alt_l r1 r2 m g g' :
    matches r1 m g g' -> matches (Alt r1 r2) m g g'
| matches_Alt_r r1 r2 m g g' :
    matches r2 m g g' -> matches (Alt r1 r2) m g g'
| matches_Group n r m g g' :
    matches r m g g' -> matches (Group n r) m g ((n, m) :: g').

(** A pattern without groups. *)
Fixpoint groupless (r : regex) : bool :=
  match r with
  | Eps | Chr _ | Plus _ => true
  | Seq r1 r2 | Alt r1 r2 => groupless r1 && groupless r2
  | Group _ _ => false
  end.

End Re.

(** ** gitlint.utils.filter_lines *)

(** The matching primitive of the line filter: anchored at the start of
    the line, or anywhere in it. *)
Inductive matching := Anchored | Anywhere.

Definition attempt (how : matching) (pattern : Re.regex) (line : string)
  : option Re.captures :=
  match how with
  | Anchored => Re.match_ pattern line
  | Anywhere => Re.search pattern line
  end.

(** What the filter yields for a line: a bare value when one group is asked
    for, a tuple otherwise; a group that took no part in the match reads
    as [None]. *)
Inductive item :=
| Bare (v : option string)
| Tuple (vs : list (option string)).

(** Modelled from the spec: [filter_lines] of [gitlint/utils.py], a file
    there is no source of here.  "For every input line, attempt a match;
    lines that do not match are silently skipped.  For each match, extract
    the named groups in the requested order and yield them as a tuple (or
    bare value when exactly one group requested)."  The spec leaves the
    matching primitive open, so it is the parameter [how]. *)
Definition filter_lines (how : matching) (lines : list string)
    (pattern : Re.regex) (groups : list string) : list item :=
  flat_map (fun line =>
    match attempt how pattern line with
    | None => []
    | Some g =>
        match groups with
        | [name] => [Bare (Re.group g name)]
        | _ => [Tuple (map (Re.group g) groups)]
        end
    end) lines.

(** ** gitlint.git *)

(** The double quote, as a one-character string. *)
Definition dquote : string := String "034"%char EmptyString.

(** [s * n] *)
Fixpoint times (s : string) (n : nat) : string :=
  match n with
  | O => EmptyString
  | S n' => s +:+ times s n'
  end.

(** A requested group, as a string.  The groups this module asks for take
    part in every match of its patterns ([blame_line_numbers],
    [two_group_pairs]), so the [None] of a group that did not is never met;
    the exception Python would end in is rendered as [TypeError]. *)
Definition the (v : option string) : M string :=
  match v with
  | Some s => mret s
  | None => raise TypeError
  end.

(** [for filename, mode in ...] *)
Definition unpack2 (it : item) : M (string * string) :=
  match it with
  | Tuple [a; b] => x ← the a; y ← the b; mret (x, y)
  | _ => raise TypeError
  end.

(** [dict(pairs)]: a later pair overwrites an earlier one. *)
Definition dict (pairs : list (string * string)) : gmap string string :=
  foldl (fun d kv => <[kv.1 := kv.2]> d) ∅ pairs.

(** Truth value of an optional list: [None] and [[]] are false. *)
Definition truthy {A} (l : option (list A)) : bool :=
  match l with
  | Some (_ :: _) => true
  | _ => false
  end.

Definition _remove_filename_quotes (filename : str) : str :=
  if Py.startswith dquote filename && Py.endswith dquote filename
  then Py.slice_1_m1 filename
  else filename.

(** [modes] of [modified_files]; the escaped [\?\?] is the text [??]. *)
Definition status_modes (tracked_only : bool) : list string :=
  ["M "; " M"; "A "; "AM"; "MM"] ++ (if tracked_only then [] else ["??"]).

(** [(?P<mode>M | M|A |AM|MM|\?\?) (?P<filename>.+)] *)
Definition status_pattern (tracked_only : bool) : Re.regex :=
  Re.Seq (Re.Group "mode" (Re.any_of (map Re.literal (status_modes tracked_only))))
 (Re.Seq (Re.Chr (Re.Lit " "))
         (Re.Group "filename" (Re.Plus Re.Any))).

(** [(?P<mode>A|M)\s(?P<filename>.+)] *)
Definition commit_pattern : Re.regex :=
  Re.Seq (Re.Group "mode" (Re.Alt (Re.literal "A") (Re.literal "M")))
 (Re.Seq (Re.Chr Re.Space)
         (Re.Group "filename" (Re.Plus Re.Any))).

(** [commit + br' (?P<line>\d+) (\d+)'].  [commit] is spliced into the
    pattern as it is; a revision id consists of hexadecimal digits, which
    stand for themselves, so the splice is the literal text.  The second,
    unnamed group is never asked for. *)
Definition blame_pattern (commit : bytes) : Re.regex :=
  Re.Seq (Re.literal commit)
 (Re.Seq (Re.Chr (Re.Lit " "))
 (Re.Seq (Re.Group "line" (Re.Plus Re.Digit))
 (Re.Seq (Re.Chr (Re.Lit " "))
         (Re.Plus Re.Digit)))).

Definition rev_parse_toplevel : call :=
  Call ["git"; "rev-parse"; "--show-toplevel"] true.
Definition rev_parse_head : call :=
  Call ["git"; "rev-parse"; "HEAD"] true.
Definition log_to_head (master : str) : call :=
  Call ["git"; "log"; "origin/" +:+ master +:+ "..HEAD"; "--oneline";
        "--no-merges"; "--pretty=%H"] true.
Definition status_porcelain : call :=
  Call ["git"; "status"; "--porcelain"; "--untracked-files=all";
        "--ignore-submodules=all"] false.
Definition diff_tree (commit : str) : call :=
  Call ["git"; "diff-tree"; "-r"; "--root"; "--no-commit-id"; "--name-status";
        commit] false.
Definition blame_porcelain (filename : str) : call :=
  Call ["git"; "blame"; "--porcelain"; filename] false.

Section Git.
(** The outcome of each invocation, and the line filter's matching. *)
Variable git : call -> proc.
Variable how : matching.

(** [subprocess.check_output] *)
Definition check_output (c : call) : M bytes :=
  match git c with
  | Exited 0 out => (Ok out, [c])
  | Exited rc out => (Raise (CalledProcessError rc out), [c])
  | NotFound => (Raise FileNotFoundError, [c])
  end.

Definition repository_root : M (option str) :=
  try_except_CalledProcessError
    (out ← check_output rev_parse_toplevel;
     let root := Py.strip out in
     s ← decode_utf8 root;
     mret (Some s))
    (mret None).

Definition last_commit : M (option str) :=
  try_except_CalledProcessError
    (out ← check_output rev_parse_head;
     let root := Py.strip out in
     s ← decode_utf8 root;
     mret (Some s))
    (mret None).

Definition commits_head_to_main (master : str) : M (list str) :=
  try_except_CalledProcessError
    (out ← check_output (log_to_head master);
     let commits := Py.strip out in
     text ← decode_utf8 commits;
     let commits := Py.split "010" text in
     mret commits)
    (mret []).

Definition _modified_files_with_commit (root commit : str)
  : M (gmap string string) :=
  out ← check_output (diff_tree commit);
  text ← decode_utf8 out;
  let status_lines := Py.split Py.linesep text in
  let modified_file_status :=
    filter_lines how status_lines commit_pattern ["filename"; "mode"] in
  pairs ← mapM (fun it =>
             '(filename, mode) ← unpack2 it;
             mret (Py.join root (_remove_filename_quotes filename),
                   mode +:+ " "))
           modified_file_status;
  mret (dict pairs).

Definition modified_files (root : str) (tracked_only : bool)
    (commits : option (list str)) : M (gmap string string) :=
  _ ← assert (Py.isabs root) ("Root has to be absolute, got: " +:+ root);
  if truthy commits then
    for_in (default [] commits) (fun list_of_modified commit =>
      modified_files_commit ← _modified_files_with_commit root commit;
      (* list_of_modified.update(modified_files_commit) *)
      mret (modified_files_commit ∪ list_of_modified)) ∅
  else
    out ← check_output status_porcelain;
    text ← decode_utf8 out;
    let status_lines := Py.split Py.linesep text in
    let modified_file_status :=
      filter_lines how status_lines (status_pattern tracked_only)
        ["filename"; "mode"] in
    pairs ← mapM (fun it =>
               '(filename, mode) ← unpack2 it;
               mret (Py.join root (_remove_filename_quotes filename), mode))
             modified_file_status;
    mret (dict pairs).

Definition modified_lines (filename : str) (extra_data : option str)
    (commit : option str) : M (option (list Z)) :=
  match extra_data with
  | None => mret (Some [])
  | Some status =>
      if negb (existsb (String.eqb status) ["M "; " M"; "MM"]) then mret None
      else
        let commit := match commit with
                      | None => times "0" 40
                      | Some c => c
                      end in
        out ← check_output (blame_porcelain filename);
        let blame_lines := Py.split Py.linesep out in
        let modified_line_numbers :=
          filter_lines how blame_lines (blame_pattern commit) ["line"] in
        line_numbers ← mapM (fun it =>
                          match it with
                          | Bare v => b ← the v; int b
                          | Tuple _ => raise TypeError
                          end)
                        modified_line_numbers;
        mret (Some (match line_numbers with
                    | _ :: _ => line_numbers
                    | [] => []
                    end))
  end.

Definition modified_lines_for_pr (filename : str) (extra_data : option str)
    (commits : list str) : M (list Z) :=
  for_in commits (fun line_numbers_map commit =>
    result ← modified_lines filename extra_data (Some commit);
    mret (match result with
          | Some ((_ :: _) as lines) => line_numbers_map ++ lines
          | _ => line_numbers_map
          end)) [].
End Git.

(** ** Vocabulary of the statements *)

(** An invocation that fails: the process exits with a non-zero code, or
    the executable is missing. *)
Definition invocation_fails (p : proc) : Prop :=
  match p with
  | Exited rc _ => rc ≠ 0%Z
  | NotFound => True
  end.

(** The statuses under which [modified_lines] runs blame. *)
Definition is_modification (status : str) : bool :=
  existsb (String.eqb status) ["M "; " M"; "MM"].

(** Per-commit maps merged in the order given. *)
Definition merge (ms : list (gmap string string)) : gmap string string :=
  foldl (fun acc m => m ∪ acc) ∅ ms.

(** The status the last map that knows [path] gives it. *)
Definition last_status (path : string) (ms : list (gmap string string))
  : option string :=
  foldl (fun acc m => match m !! path with Some v => Some v | None => acc end)
        None ms.

(** The non-empty, non-absent results, concatenated in order. *)
Definition aggregate (rs : list (option (list Z))) : list Z :=
  concat (omap (fun r => match r with
                         | Some ((_ :: _) as l) => Some l
                         | _ => None
                         end) rs).

(** A non-empty run of decimal digits. *)
Definition digits (s : string) : Prop :=
  s ≠ EmptyString ∧ forallb Py.is_digit (list_ascii_of_string s) = true.

(** What one line of blame output contributes for revision [sha]. *)
Definition line_number (how : matching) (sha : bytes) (line : bytes)
  : option Z :=
  g ← attempt how (blame_pattern sha) line;
  v ← Re.group g "line";
  Some (Py.decimal v).

(** The text of the group [line], where the line matches. *)
Definition line_field (how : matching) (sha : bytes) (line : bytes)
  : option bytes :=
  g ← attempt how (blame_pattern sha) line;
  Re.group g "line".

(** A run of digits short enough for [int]. *)
Definition convertible (v : bytes) : bool :=
  Nat.leb (String.length v) Py.max_str_digits.

(** [sub] occurs somewhere in [s]. *)
Definition contains (sub s : string) : Prop :=
  exists pre post, s = pre +:+ sub +:+ post.

(** [sub in s] *)
Fixpoint occurs (sub s : string) : bool :=
  String.prefix sub s ||
  match s with
  | String _ s' => occurs sub s'
  | EmptyString => false
  end.

(** Porcelain blame output, read as the spec describes it: a header line
    is the revision id, the line number, a second number and possibly more;
    the lines in between belong to other revisions or carry metadata and
    content.  [blame_entries sha lines ns]: [lines] are headers of [sha],
    which carry the numbers [ns] in this order, and lines in which [sha]
    does not occur. *)
Inductive blame_entries (sha : bytes) : list bytes -> list Z -> Prop :=
| entries_nil : blame_entries sha [] []
| entries_header d1 d2 rest ls ns :
    digits d1 -> String.length d1 <= Py.max_str_digits -> digits d2 ->
    blame_entries sha ls ns ->
    blame_entries sha
      ((sha +:+ " " +:+ d1 +:+ " " +:+ d2 +:+ rest) :: ls)
      (Py.decimal d1 :: ns)
| entries_other l ls ns :
    ~ contains sha l ->
    blame_entries sha ls ns ->
    blame_entries sha (l :: ls) ns.

(** ** Repositories for the examples *)

Definition LF : string := String "010"%char EmptyString.
Definition TAB : string := String "009"%char EmptyString.

(** An outcome per listed invocation; any other one finds no executable. *)
Fixpoint table (answers : list (call * proc)) (c : call) : proc :=
  match answers with
  | [] => NotFound
  | (c', p) :: rest => if decide (c = c') then p else table rest c
  end.

Definition zero40 : string := "0000000000000000000000000000000000000000".



(** Not a repository: every command exits with code 128. *)
Definition no_repo : call -> proc :=
  fun _ => Exited 128 ("fatal: not a git repository" +:+ LF).

(** No [git] on the path. *)
Definition no_git : call -> proc := fun _ => NotFound.

(** [HEAD] is [origin/main]: the log prints nothing. *)
Definition repo_at_main : call -> proc :=
  table [(log_to_head "main", Exited 0 EmptyString)].

Definition commit1 : str := "89e6c98d92887913cadf06b2adb97f26cde4849b".
Definition commit2 : str := "2b66fd261ee5c6cfc8de7fa466bab600bcfe4f69".

(** [commit1] adds [src/f.py], [commit2] modifies it. *)
Definition repo_two_commits : call -> proc :=
  table [(diff_tree commit1, Exited 0 ("A" +:+ TAB +:+ "src/f.py" +:+ LF));
         (diff_tree commit2, Exited 0 ("M" +:+ TAB +:+ "src/f.py" +:+ LF));
         (blame_porcelain "src/f.py",
          Exited 0 (commit1 +:+ " 5 5 1" +:+ LF +:+ TAB +:+ "a" +:+ LF +:+
                    commit2 +:+ " 5 6 1" +:+ LF +:+ TAB +:+ "b" +:+ LF))].

(** A staged file whose name git prints in quotes. *)
Definition repo_weird : call -> proc :=
  table [(status_porcelain,
          Exited 0 ("A  " +:+ dquote +:+ "weird name.txt" +:+ dquote +:+ LF +:+
                    "?? notes.txt" +:+ LF))].

(** ** Vocabulary of the further properties *)

(** The exception [check_output] raises for an invocation that fails. *)
Definition exn_of (p : proc) : exn :=
  match p with
  | Exited rc out => CalledProcessError rc out
  | NotFound => FileNotFoundError
  end.

(** Only characters [bytes.strip()] removes. *)
Definition blank (ws : string) : Prop :=
  forallb Py.is_bytes_space (list_ascii_of_string ws) = true.

(** No blank at the left end, none at the right end. *)
Definition trimmed (s : string) : Prop := Py.lstrip s = s ∧ Py.rstrip s = s.

Definition is_hex (a : ascii) : bool :=
  Py.between 48 57 a || Py.between 97 102 a || Py.between 65 70 a.

(** A revision id as git prints and takes it: hexadecimal digits, at least
    one. *)
Definition revision (c : string) : Prop :=
  c ≠ EmptyString ∧ forallb is_hex (list_ascii_of_string c) = true.

(** A text without line feed. *)
Definition one_line (s : string) : Prop :=
  forallb (Re.in_class Re.Any) (list_ascii_of_string s) = true.

(** Lines, each ended by a line feed, as git prints them. *)
Fixpoint unlines (ls : list string) : string :=
  match ls with
  | [] => EmptyString
  | l :: ls' => l +:+ LF +:+ unlines ls'
  end.

(** ['\n'.join(ls)] *)
Fixpoint join_lines (ls : list string) : string :=
  match ls with
  | [] => EmptyString
  | [l] => l
  | l :: ls' => l +:+ LF +:+ join_lines ls'
  end.

(** The pair a line of status or diff-tree output contributes to the map:
    the path under [root] and the mode, passed through [post]. *)
Definition pair_of_line (how : matching) (root : str) (pattern : Re.regex)
    (post : string -> string) (line : string) : option (string * string) :=
  g ← attempt how pattern line;
  f ← Re.group g "filename";
  m ← Re.group g "mode";
  Some (Py.join root (_remove_filename_quotes f), post m).

(** A line of [git status --porcelain]: mode, blank, name. *)
Definition status_line (e : string * string) : string :=
  e.1 +:+ " " +:+ e.2.

(** A line of [git diff-tree --name-status]: status letter, tab, name. *)
Definition diff_tree_line (e : string * string) : string :=
  e.1 +:+ TAB +:+ e.2.

(** The entry of the map a listed file gets. *)
Definition entry_of (root : str) (post : string -> string)
    (e : string * string) : string * string :=
  (Py.join root (_remove_filename_quotes e.2), post e.1).

(** ** More repositories for the examples *)

(** The blame output of [src/f.py] in [repo_two_commits]. *)
Definition blame_two_commits : bytes :=
  commit1 +:+ " 5 5 1" +:+ LF +:+ TAB +:+ "a" +:+ LF +:+
  commit2 +:+ " 5 6 1" +:+ LF +:+ TAB +:+ "b" +:+ LF.

(** Blame of a file whose second line is not UTF-8. *)
Definition blame_latin1 : bytes :=
  zero40 +:+ " 1 1 2" +:+ LF +:+ TAB +:+ "# caf" +:+
  String "233"%char EmptyString +:+ LF +:+
  zero40 +:+ " 2 2" +:+ LF +:+ TAB +:+ String "255"%char EmptyString +:+ LF.

Definition repo_latin1_file : call -> proc :=
  table [(blame_porcelain "menu.txt", Exited 0 blame_latin1)].

(** Two commits ahead of [origin/main]. *)
Definition repo_ahead : call -> proc :=
  table [(log_to_head "main", Exited 0 (unlines [commit2; commit1]));
         (rev_parse_toplevel, Exited 0 ("/home/dev/my repo" +:+ LF));
         (rev_parse_head, Exited 0 (commit2 +:+ LF))].

(** The toplevel is a directory whose name is not UTF-8; [HEAD] is
    resolved as usual. *)
Definition repo_latin1 : call -> proc :=
  table [(rev_parse_toplevel,
          Exited 0 ("/home/dev/caf" +:+ String "233"%char EmptyString +:+ LF));
         (rev_parse_head, Exited 0 (commit2 +:+ LF));
         (log_to_head "main", Exited 0 (unlines [commit2]))].

(** The log prints a byte that is not UTF-8. *)
Definition repo_latin1_log : call -> proc :=
  table [(log_to_head "main", Exited 0 (String "192"%char EmptyString +:+ LF))].

(** A repository without any commit yet: the toplevel is found, [HEAD]
    is not. *)
Definition repo_no_commits : call -> proc :=
  table [(rev_parse_toplevel, Exited 0 ("/home/dev/empty" +:+ LF));
         (rev_parse_head,
          Exited 128 ("fatal: ambiguous argument 'HEAD'" +:+ LF))].

(** A file of two uncommitted lines, the second of which reads like a
    header of the all-zero revision. *)
Definition blame_ids : bytes :=
  zero40 +:+ " 1 1 2" +:+ LF +:+
  "author Not Committed Yet" +:+ LF +:+
  "filename ids.txt" +:+ LF +:+
  TAB +:+ "revisions seen so far" +:+ LF +:+
  zero40 +:+ " 2 2" +:+ LF +:+
  TAB +:+ zero40 +:+ " 1 1" +:+ LF.

Definition repo_ids : call -> proc :=
  table [(blame_porcelain "ids.txt", Exited 0 blame_ids)].



(** A working tree with a staged change, an unstaged one, an added file
    with a quoted name and an untracked file. *)
Definition status_entries : list (string * string) :=
  [("M ", "src/a.py"); (" M", "src/b.py");
   ("A ", dquote +:+ "weird name.txt" +:+ dquote); ("??", "notes.txt")].

Definition repo_tree : call -> proc :=
  table [(status_porcelain, Exited 0 (unlines (map status_line status_entries)))].

(** [commit1] adds two files; looking at [commit2] fails. *)
Definition repo_broken : call -> proc :=
  table [(diff_tree commit1,
          Exited 0 (unlines (map diff_tree_line
                               [("A", "src/a.py"); ("M", "/abs/b.py")])));
         (diff_tree commit2, Exited 128 ("fatal: bad object" +:+ LF));
         (blame_porcelain "gone.py", Exited 128 ("fatal: no such path" +:+ LF))].

(** * Properties *)

(** ** The monad *)

Lemma bind_Ok {A B} (a : A) (log : list call) (f : A -> M B) :
  ((Ok a, log) ≫= f) = (result (f a), log ++ calls (f a)).
Proof. unfold mbind, M_bind, result, calls. now destruct (f a). Qed.

Lemma bind_ret_l {A B} (a : A) (f : A -> M B) : (mret a ≫= f) = f a.
Proof. unfold mret, M_ret. rewrite bind_Ok. now destruct (f a). Qed.

Lemma bind_ret_r {A} (m : M A) : (m ≫= mret) = m.
Proof.
  destruct m as [[a|e] log]; [|reflexivity].
  rewrite bind_Ok. cbn. now rewrite app_nil_r.
Qed.

Lemma bind_assoc {A B C} (m : M A) (f : A -> M B) (g : B -> M C) :
  ((m ≫= f) ≫= g) = (m ≫= fun a => f a ≫= g).
Proof.
  destruct m as [[a|e] log]; [|reflexivity].
  rewrite !bind_Ok.
  destruct (f a) as [[b|e] log1]; cbn.
  - destruct (g b) as [r log2]; cbn. now rewrite app_assoc.
  - reflexivity.
Qed.

Lemma bind_ext {A B} (m : M A) (f g : A -> M B) :
  (forall a, f a = g a) -> (m ≫= f) = (m ≫= g).
Proof.
  intros E. destruct m as [[a|e] log]; [|reflexivity].
  now rewrite !bind_Ok, E.
Qed.

(** ** Statuses that do not run blame *)

Lemma modified_lines_unmodified git how filename commit :
  modified_lines git how filename None commit = (Ok (Some []), []).
Proof. reflexivity. Qed.

Lemma modified_lines_addition git how filename status commit :
  is_modification status = false ->
  modified_lines git how filename (Some status) commit = (Ok None, []).
Proof.
  intros H. unfold modified_lines. fold (is_modification status).
  now rewrite H.
Qed.

(** C3. Whatever the file and the commit, [modified_lines] with no status
    returns the empty list, not [None] and not a non-empty list, and runs
    no command. *)
Theorem modified_lines_no_status_is_empty :
  forall git how filename commit,
    modified_lines git how filename None commit = (Ok (Some []), []).
Proof. intros. apply modified_lines_unmodified. Qed.

(** C2. Whatever the file and the commit, [modified_lines] with a status
    that is present but is none of ["M "], [" M"], ["MM"] returns [None],
    which is not the empty list, and runs no command. *)
Theorem modified_lines_other_status_is_None :
  forall git how filename status commit,
    status ≠ "M " -> status ≠ " M" -> status ≠ "MM" ->
    modified_lines git how filename (Some status) commit = (Ok None, [])
    ∧ result (modified_lines git how filename (Some status) commit)
      ≠ Ok (Some []).
Proof.
  intros git how filename status commit H1 H2 H3.
  assert (E : is_modification status = false).
  { unfold is_modification. cbn.
    rewrite !orb_false_r.
    apply String.eqb_neq in H1, H2, H3. now rewrite H1, H2, H3. }
  rewrite (modified_lines_addition _ _ _ _ _ E). split; [reflexivity|].
  cbn. discriminate.
Qed.

Lemma modified_lines_other_status_is_None_witness :
  modified_lines no_git Anywhere "new.py" (Some "A ") (Some commit1)
    = (Ok None, [])
  ∧ result (modified_lines no_git Anywhere "new.py" (Some "A ") (Some commit1))
    ≠ Ok (Some []).
Proof.
  apply (modified_lines_other_status_is_None no_git Anywhere "new.py" "A "
           (Some commit1)); discriminate.
Defined.

(** ** Failing fast on a relative root *)

(** C7. With a root that is not absolute, whatever the other arguments,
    [modified_files] stops on the assertion, whose message carries the
    root, before any command is run and without returning a map. *)
Theorem modified_files_relative_root_fails :
  forall git how root tracked_only commits,
    Py.isabs root = false ->
    modified_files git how root tracked_only commits
    = (Raise (AssertionError ("Root has to be absolute, got: " +:+ root)), []).
Proof.
  intros git how root tracked_only commits H.
  unfold modified_files, assert. now rewrite H.
Qed.

Lemma modified_files_relative_root_fails_witness :
  modified_files repo_weird Anywhere "relative/path" false (Some [commit1])
  = (Raise (AssertionError "Root has to be absolute, got: relative/path"), []).
Proof.
  apply (modified_files_relative_root_fails repo_weird Anywhere
           "relative/path" false (Some [commit1])).
  reflexivity.
Defined.

(** ** The guarded lookups *)

Lemma check_output_nonzero git c rc out :
  rc ≠ 0%Z -> git c = Exited rc out ->
  check_output git c = (Raise (CalledProcessError rc out), [c]).
Proof.
  intros Hrc E. unfold check_output. rewrite E. now destruct rc.
Qed.

Lemma check_output_zero git c out :
  git c = Exited 0 out -> check_output git c = (Ok out, [c]).
Proof. intros E. unfold check_output. now rewrite E. Qed.

(** C6, as the code has it. Whenever its command exits with a non-zero
    code, [repository_root] returns [None] and raises nothing, whatever the
    other commands do; and so does [last_commit]. *)
Theorem lookups_return_None_on_nonzero_exit :
  forall git,
    (forall rc out,
       rc ≠ 0%Z -> git rev_parse_toplevel = Exited rc out ->
       repository_root git = (Ok None, [rev_parse_toplevel]))
    ∧ (forall rc out,
         rc ≠ 0%Z -> git rev_parse_head = Exited rc out ->
         last_commit git = (Ok None, [rev_parse_head])).
Proof.
  intros git. split; intros rc out Hrc E.
  - unfold repository_root. now rewrite (check_output_nonzero _ _ _ _ Hrc E).
  - unfold last_commit. now rewrite (check_output_nonzero _ _ _ _ Hrc E).
Qed.

(** Outside a repository both lookups give [None]; in a repository without
    commits the root is found and only [last_commit] gives [None]. *)
Lemma lookups_return_None_on_nonzero_exit_witness :
  repository_root no_repo = (Ok None, [rev_parse_toplevel])
  ∧ last_commit no_repo = (Ok None, [rev_parse_head])
  ∧ last_commit repo_no_commits = (Ok None, [rev_parse_head])
  ∧ repository_root repo_no_commits
    = (Ok (Some "/home/dev/empty"), [rev_parse_toplevel]).
Proof.
  split; [|split; [|split]].
  - apply (proj1 (lookups_return_None_on_nonzero_exit no_repo) 128%Z
             ("fatal: not a git repository" +:+ LF));
      [discriminate|reflexivity].
  - apply (proj2 (lookups_return_None_on_nonzero_exit no_repo) 128%Z
             ("fatal: not a git repository" +:+ LF));
      [discriminate|reflexivity].
  - apply (proj2 (lookups_return_None_on_nonzero_exit repo_no_commits) 128%Z
             ("fatal: ambiguous argument 'HEAD'" +:+ LF));
      [discriminate|reflexivity].
  - reflexivity.
Defined.

(** C6, as stated, fails: a missing executable is an invocation failure,
    and both lookups let its exception through. *)
Lemma lookups_raise_on_missing_executable :
  ~ (forall git,
       invocation_fails (git rev_parse_toplevel) ->
       invocation_fails (git rev_parse_head) ->
       result (repository_root git) = Ok None
       ∧ result (last_commit git) = Ok None).
Proof.
  intros H. destruct (H no_git I I) as [H1 _]. discriminate H1.
Qed.

Example repository_root_no_git :
  repository_root no_git = (Raise FileNotFoundError, [rev_parse_toplevel]).
Proof. reflexivity. Qed.

Example last_commit_no_git :
  last_commit no_git = (Raise FileNotFoundError, [rev_parse_head]).
Proof. reflexivity. Qed.

(** ** Commits ahead of the main branch *)

Lemma split_nonempty sep s : Py.split sep s ≠ [].
Proof.
  destruct s as [|a s]; cbn; [discriminate|].
  destruct (Ascii.eqb a sep); [discriminate|].
  destruct (Py.split sep s); discriminate.
Qed.

(** C5 does not hold of the code. When the log prints nothing,
    [commits_head_to_main] returns the one-element list holding the empty
    string, not the empty list. *)
Theorem commits_head_to_main_empty_log :
  forall git master,
    git (log_to_head master) = Exited 0 EmptyString ->
    commits_head_to_main git master = (Ok [EmptyString], [log_to_head master])
    ∧ result (commits_head_to_main git master) ≠ Ok [].
Proof.
  intros git master E. unfold commits_head_to_main.
  rewrite (check_output_zero _ _ _ E). cbn. split; [reflexivity|discriminate].
Qed.

(** More generally, a log that succeeds never yields the empty list. *)
Lemma commits_head_to_main_success_nonempty git master out :
  git (log_to_head master) = Exited 0 out ->
  result (commits_head_to_main git master) ≠ Ok [].
Proof.
  intros E. unfold commits_head_to_main.
  rewrite (check_output_zero _ _ _ E), bind_Ok.
  unfold decode_utf8. destruct (Py.utf8_valid (Py.strip out)); [|easy].
  rewrite bind_ret_l. cbn. intros [= H]. now apply split_nonempty in H.
Qed.

Lemma commits_head_to_main_empty_log_witness :
  commits_head_to_main repo_at_main "main"
  = (Ok [EmptyString], [log_to_head "main"])
  ∧ result (commits_head_to_main repo_at_main "main") ≠ Ok [].
Proof.
  apply (commits_head_to_main_empty_log repo_at_main "main"). reflexivity.
Defined.

(** ** Aggregating over the commits of a pull request *)

Lemma aggregate_cons r rs :
  aggregate (r :: rs)
  = match r with Some ((_ :: _) as l) => l | _ => [] end ++ aggregate rs.
Proof.
  unfold aggregate. destruct r as [[|x l]|]; reflexivity.
Qed.

(** The loop of [modified_lines_for_pr], started from any accumulator. *)
Lemma for_pr_loop git how filename extra_data commits acc :
  for_in commits (fun line_numbers_map commit =>
    result ← modified_lines git how filename extra_data (Some commit);
    mret (match result with
          | Some ((_ :: _) as lines) => line_numbers_map ++ lines
          | _ => line_numbers_map
          end)) acc
  = (rs ← mapM (fun c => modified_lines git how filename extra_data (Some c))
             commits;
     mret (acc ++ aggregate rs)).
Proof.
  revert acc. induction commits as [|c commits IH]; intros acc.
  - cbn. now rewrite app_nil_r.
  - cbn [for_in mapM]. rewrite !bind_assoc. apply bind_ext. intros r.
    rewrite bind_ret_l, IH, !bind_assoc. apply bind_ext. intros rs.
    rewrite bind_ret_l, aggregate_cons.
    destruct r as [[|x l]|]; cbn [app]; rewrite <- ?app_assoc; reflexivity.
Qed.

(** C9. [modified_lines_for_pr] runs [modified_lines] for each commit in
    order and returns the non-empty, non-absent results concatenated in
    that order, neither sorted nor deduplicated, so that two results [[5]]
    give [[5; 5]]; an exception of one of the runs ends the loop. *)
Theorem modified_lines_for_pr_concatenates :
  forall git how filename extra_data commits,
    modified_lines_for_pr git how filename extra_data commits
    = (rs ← mapM (fun c => modified_lines git how filename extra_data (Some c))
               commits;
       mret (aggregate rs))
    ∧ aggregate [Some [5%Z]; Some [5%Z]] = [5%Z; 5%Z]
    ∧ forall l1 l2 : list Z,
        aggregate [Some l1; None; Some []; Some l2] = l1 ++ l2.
Proof.
  intros. split; [|split].
  - unfold modified_lines_for_pr. now rewrite for_pr_loop.
  - reflexivity.
  - intros l1 l2. unfold aggregate.
    destruct l1, l2; cbn; rewrite ?app_nil_r; reflexivity.
Qed.

(** Two commits that both report line 5 of [src/f.py]. *)
Lemma modified_lines_for_pr_concatenates_witness :
  modified_lines_for_pr repo_two_commits Anywhere "src/f.py" (Some "M ")
    [commit1; commit2]
  = (Ok [5%Z; 5%Z], [blame_porcelain "src/f.py"; blame_porcelain "src/f.py"]).
Proof.
  rewrite (proj1 (modified_lines_for_pr_concatenates repo_two_commits Anywhere
                    "src/f.py" (Some "M ") [commit1; commit2])).
  vm_compute. reflexivity.
Defined.

(** C10. [modified_lines_for_pr] returns a list: its loop starts from the
    empty list and only ever appends lists to it.  With a status that marks
    the file as new, every run of [modified_lines] returns [None], the
    aggregate is the empty list, and no command is run; the same holds
    with no status. *)
Theorem modified_lines_for_pr_never_None :
  forall git how filename extra_data commits,
    match extra_data with
    | Some status => is_modification status = false
    | None => True
    end ->
    modified_lines_for_pr git how filename extra_data commits = (Ok [], [])
    ∧ forall commit,
        result (modified_lines git how filename extra_data commit)
        = Ok (match extra_data with Some _ => None | None => Some [] end).
Proof.
  intros git how filename extra_data commits H.
  assert (E : forall commit,
             modified_lines git how filename extra_data commit
             = mret (match extra_data with Some _ => None | None => Some [] end)).
  { intros commit. destruct extra_data as [status|].
    - now apply modified_lines_addition.
    - apply modified_lines_unmodified. }
  split; [|intros commit; now rewrite E].
  unfold modified_lines_for_pr. generalize (@nil Z) as acc.
  induction commits as [|c commits IH]; intros acc; [reflexivity|].
  cbn [for_in]. rewrite E, !bind_ret_l.
  destruct extra_data; apply IH.
Qed.

Lemma modified_lines_for_pr_never_None_witness :
  modified_lines_for_pr repo_two_commits Anywhere "src/f.py" (Some "A ")
    [commit1; commit2] = (Ok [], [])
  ∧ forall commit,
      result (modified_lines repo_two_commits Anywhere "src/f.py" (Some "A ")
                commit) = Ok None.
Proof.
  apply (modified_lines_for_pr_never_None repo_two_commits Anywhere
           "src/f.py" (Some "A ") [commit1; commit2]).
  reflexivity.
Defined.

(** ** Strings *)

Lemma append_nil_l (s : string) : EmptyString +:+ s = s.
Proof. reflexivity. Qed.

Lemma append_cons (a : ascii) (s1 s2 : string) :
  String a s1 +:+ s2 = String a (s1 +:+ s2).
Proof. reflexivity. Qed.

Lemma append_nil_r (s : string) : s +:+ EmptyString = s.
Proof.
  induction s as [|a s IH]; [reflexivity|]. now rewrite append_cons, IH.
Qed.

Lemma append_assoc (s1 s2 s3 : string) :
  (s1 +:+ s2) +:+ s3 = s1 +:+ s2 +:+ s3.
Proof.
  induction s1 as [|a s1 IH]; [reflexivity|]. now rewrite !append_cons, IH.
Qed.

Lemma chars_append (s1 s2 : string) :
  list_ascii_of_string (s1 +:+ s2)
  = list_ascii_of_string s1 ++ list_ascii_of_string s2.
Proof.
  induction s1 as [|a s1 IH]; [reflexivity|].
  rewrite append_cons. cbn. now rewrite IH.
Qed.

Lemma length_append (s1 s2 : string) :
  String.length (s1 +:+ s2) = String.length s1 + String.length s2.
Proof.
  induction s1 as [|a s1 IH]; [reflexivity|].
  rewrite append_cons. cbn. now rewrite IH.
Qed.

(** ** The matcher finds only matches *)

Section Soundness.
Context {A : Type}.
Implicit Types (k : @Re.cont A) (s m acc : string) (g : Re.captures).

Lemma plus_sound c s acc g k x :
  Re.plus c s acc g k = Some x ->
  exists m s',
    m ≠ EmptyString
    ∧ forallb (Re.in_class c) (list_ascii_of_string m) = true
    ∧ s = m +:+ s'
    ∧ k (acc +:+ m) s' g = Some x.
Proof.
  revert acc. induction s as [|a s IH]; intros acc; cbn; [discriminate|].
  destruct (Re.in_class c a) eqn:Ha; [|discriminate].
  destruct (Re.plus c s (acc +:+ String a EmptyString) g k) as [y|] eqn:E.
  - intros [= ->]. destruct (IH _ E) as (m & s' & Hm & Hall & -> & Hk).
    exists (String a m), s'. cbn. rewrite Ha, Hall.
    rewrite append_assoc in Hk. now repeat split.
  - intros Hk. exists (String a EmptyString), s. cbn. rewrite Ha.
    now repeat split.
Qed.

Lemma run_sound r : forall s g k x,
  Re.run r s g k = Some x ->
  exists m s' g',
    Re.matches r m g g' ∧ s = m +:+ s' ∧ k m s' g' = Some x.
Proof.
  induction r as [|c|c|r1 IH1 r2 IH2|r1 IH1 r2 IH2|n r IH];
    intros s g k x; cbn.
  - intros H. exists EmptyString, s, g. split; [constructor|now split].
  - destruct s as [|a s]; [discriminate|].
    destruct (Re.in_class c a) eqn:Ha; [|discriminate].
    intros H. exists (String a EmptyString), s, g.
    split; [now constructor|now split].
  - intros H. destruct (plus_sound _ _ _ _ _ _ H) as (m & s' & ? & ? & ? & ?).
    exists m, s', g. split; [now constructor|now split].
  - intros H.
    destruct (IH1 _ _ _ _ H) as (m1 & s1 & g1 & M1 & -> & H1).
    destruct (IH2 _ _ _ _ H1) as (m2 & s2 & g2 & M2 & -> & H2).
    exists (m1 +:+ m2), s2, g2.
    split; [econstructor; eassumption|]. now rewrite append_assoc.
  - destruct (Re.run r1 s g k) as [y|] eqn:E.
    + intros [= ->]. destruct (IH1 _ _ _ _ E) as (m & s' & g' & M1 & ? & ?).
      exists m, s', g'. split; [now apply Re.matches_Alt_l|now split].
    + intros H. destruct (IH2 _ _ _ _ H) as (m & s' & g' & M2 & ? & ?).
      exists m, s', g'. split; [now apply Re.matches_Alt_r|now split].
  - intros H. destruct (IH _ _ _ _ H) as (m & s' & g' & M1 & ? & ?).
    exists m, s', ((n, m) :: g'). split; [now constructor|now split].
Qed.
End Soundness.

Lemma match_sound r s g :
  Re.match_ r s = Some g -> exists m, Re.matches r m [] g.
Proof.
  intros H. destruct (run_sound _ _ _ _ _ H) as (m & s' & g' & M & _ & [= ->]).
  now exists m.
Qed.

Lemma search_sound r s g :
  Re.search r s = Some g -> exists m, Re.matches r m [] g.
Proof.
  induction s as [|a s IH]; cbn.
  - destruct (Re.match_ r EmptyString) eqn:E; [|discriminate].
    intros [= ->]. eapply match_sound, E.
  - destruct (Re.match_ r (String a s)) eqn:E; [|exact IH].
    intros [= ->]. eapply match_sound, E.
Qed.

Lemma attempt_sound how r s g :
  attempt how r s = Some g -> exists m, Re.matches r m [] g.
Proof. destruct how; [apply match_sound|apply search_sound]. Qed.

Lemma matches_groupless r m g g' :
  Re.groupless r = true -> Re.matches r m g g' -> g' = g.
Proof.
  intros G M. induction M; cbn in G; try reflexivity;
    try (apply andb_prop in G as [G1 G2]); try discriminate; auto.
  rewrite (IHM2 G2). auto.
Qed.

Lemma groupless_literal s : Re.groupless (Re.literal s) = true.
Proof. induction s; cbn; auto. Qed.

(** ** What the module's patterns capture *)

Lemma blame_pattern_captures sha m g :
  Re.matches (blame_pattern sha) m [] g ->
  exists v, g = [("line", v)] ∧ digits v.
Proof.
  unfold blame_pattern. intros M.
  inversion M as [| | |? ? ? ? ? g1 ? M1 M2| | |]; subst; clear M.
  apply matches_groupless in M1; [subst g1|apply groupless_literal].
  inversion M2 as [| | |? ? ? ? ? g2 ? M3 M4| | |]; subst; clear M2.
  inversion M3; subst; clear M3.
  inversion M4 as [| | |? ? ? ? ? g3 ? M5 M6| | |]; subst; clear M4.
  inversion M5 as [| | | | | |? ? ? ? ? M7]; subst; clear M5.
  inversion M7; subst; clear M7.
  inversion M6 as [| | |? ? ? ? ? g4 ? M8 M9| | |]; subst; clear M6.
  inversion M8; subst; clear M8. inversion M9; subst; clear M9.
  eexists. split; [reflexivity|]. now split.
Qed.

Lemma two_groups_captures alternatives sep m g :
  Re.groupless alternatives = true ->
  Re.matches
    (Re.Seq (Re.Group "mode" alternatives)
       (Re.Seq (Re.Chr sep) (Re.Group "filename" (Re.Plus Re.Any)))) m [] g ->
  exists f mode, g = [("filename", f); ("mode", mode)].
Proof.
  intros G M.
  inversion M as [| | |? ? ? ? ? g1 ? M1 M2| | |]; subst; clear M.
  inversion M1 as [| | | | | |? ? ? ? ? M3]; subst; clear M1.
  apply matches_groupless in M3; [subst|assumption].
  inversion M2 as [| | |? ? ? ? ? g2 ? M4 M5| | |]; subst; clear M2.
  inversion M4; subst; clear M4.
  inversion M5 as [| | | | | |? ? ? ? ? M6]; subst; clear M5.
  inversion M6; subst; clear M6.
  now eexists _, _.
Qed.

Lemma status_pattern_captures tracked_only m g :
  Re.matches (status_pattern tracked_only) m [] g ->
  exists f mode, g = [("filename", f); ("mode", mode)].
Proof.
  apply two_groups_captures. now destruct tracked_only.
Qed.

Lemma commit_pattern_captures m g :
  Re.matches commit_pattern m [] g ->
  exists f mode, g = [("filename", f); ("mode", mode)].
Proof. now apply two_groups_captures. Qed.

(** ** What the matcher finds on a given line *)

Section Matching.
Context {A : Type}.
Implicit Types (k : @Re.cont A) (s m acc : string) (g : Re.captures).

Lemma run_literal p : forall s g k,
  Re.run (Re.literal p) (p +:+ s) g k = k p s g.
Proof.
  induction p as [|a p IH]; intros s g k; [reflexivity|].
  rewrite append_cons. cbn. rewrite Ascii.eqb_refl. now rewrite IH.
Qed.

(** A run of class characters followed by something else is taken
    whole, when the rest of the pattern then succeeds. *)
Lemma plus_takes_run c m : forall s acc g k x,
  m ≠ EmptyString ->
  forallb (Re.in_class c) (list_ascii_of_string m) = true ->
  match s with
  | String b _ => Re.in_class c b = false
  | EmptyString => True
  end ->
  k (acc +:+ m) s g = Some x ->
  Re.plus c (m +:+ s) acc g k = Some x.
Proof.
  induction m as [|a m IH]; intros s acc g k x Hne Hall Hs Hk; [easy|].
  cbn in Hall. apply andb_prop in Hall as [Ha Hall].
  rewrite append_cons. cbn. rewrite Ha.
  destruct m as [|b m].
  - rewrite append_nil_l.
    assert (E : Re.plus c s (acc +:+ String a EmptyString) g k = None).
    { destruct s as [|b s]; [reflexivity|]. cbn. now rewrite Hs. }
    now rewrite E.
  - rewrite (IH s (acc +:+ String a EmptyString) g k x); try easy.
    now rewrite append_assoc.
Qed.

Lemma plus_cons c a s acc g k :
  Re.plus c (String a s) acc g k
  = if Re.in_class c a then
      match Re.plus c s (acc +:+ String a EmptyString) g k with
      | Some x => Some x
      | None => k (acc +:+ String a EmptyString) s g
      end
    else None.
Proof. reflexivity. Qed.

(** When whatever follows succeeds with the same outcome wherever the
    loop stops, one class character is enough. *)
Lemma plus_then_anything c s : forall a acc g k x,
  Re.in_class c a = true ->
  (forall m s', k m s' g = Some x) ->
  Re.plus c (String a s) acc g k = Some x.
Proof.
  induction s as [|b s IH]; intros a acc g k x Ha Hk;
    rewrite plus_cons, Ha.
  - apply Hk.
  - destruct (Re.in_class c b) eqn:Hb.
    + now rewrite (IH b _ g k x).
    + rewrite plus_cons, Hb. apply Hk.
Qed.
End Matching.

Lemma search_of_match r s g : Re.match_ r s = Some g -> Re.search r s = Some g.
Proof. intros H. destruct s; cbn; now rewrite H. Qed.

Lemma attempt_of_match how r s g :
  Re.match_ r s = Some g -> attempt how r s = Some g.
Proof. destruct how; [easy|apply search_of_match]. Qed.

(** ** Lines of a modified file *)

(** The revision id of uncommitted content: ['0' * 40]. *)
Lemma zero_revision : times "0" 40 = zero40.
Proof. reflexivity. Qed.

(** A header line of revision [sha] matches from its first character, and
    the group [line] is its first number. *)
Lemma blame_header_match sha d1 d2 rest :
  digits d1 -> digits d2 ->
  Re.match_ (blame_pattern sha) (sha +:+ " " +:+ d1 +:+ " " +:+ d2 +:+ rest)
  = Some [("line", d1)].
Proof.
  intros [Hne1 Hd1] [Hne2 Hd2].
  unfold Re.match_, blame_pattern. cbn [Re.run].
  rewrite run_literal.
  rewrite (append_cons " " EmptyString), append_nil_l. cbn [Re.run].
  change (Re.in_class (Re.Lit " ") " ") with true. cbv iota.
  apply plus_takes_run; try assumption.
  - rewrite (append_cons " " EmptyString). reflexivity.
  - rewrite (append_cons " " EmptyString), !append_nil_l.
    change (Re.in_class (Re.Lit " ") " ") with true. cbv iota.
    destruct d2 as [|a d2]; [easy|].
    cbn in Hd2. apply andb_prop in Hd2 as [Ha _].
    rewrite append_cons. now apply plus_then_anything.
Qed.

(** *** Where a match lies in the line *)

Lemma match_at r s g :
  Re.match_ r s = Some g ->
  exists m s', s = m +:+ s' ∧ Re.matches r m [] g.
Proof.
  intros H. destruct (run_sound _ _ _ _ _ H) as (m & s' & g' & M & E & [= ->]).
  now exists m, s'.
Qed.

Lemma search_at r s g :
  Re.search r s = Some g ->
  exists pre m s', s = pre +:+ m +:+ s' ∧ Re.matches r m [] g.
Proof.
  induction s as [|a s IH]; cbn [Re.search].
  - destruct (Re.match_ r EmptyString) eqn:E; [|discriminate].
    intros [= ->]. destruct (match_at _ _ _ E) as (m & s' & Es & M).
    now exists EmptyString, m, s'.
  - destruct (Re.match_ r (String a s)) eqn:E.
    + intros [= ->]. destruct (match_at _ _ _ E) as (m & s' & Es & M).
      now exists EmptyString, m, s'.
    + intros H. destruct (IH H) as (pre & m & s' & -> & M).
      now exists (String a pre), m, s'.
Qed.

Lemma attempt_at how r s g :
  attempt how r s = Some g ->
  exists pre m s', s = pre +:+ m +:+ s' ∧ Re.matches r m [] g.
Proof.
  destruct how; [|apply search_at].
  intros H. destruct (match_at _ _ _ H) as (m & s' & E & M).
  now exists EmptyString, m, s'.
Qed.

Lemma matches_Seq_inv r1 r2 m g g2 :
  Re.matches (Re.Seq r1 r2) m g g2 ->
  exists m1 m2 g1,
    m = m1 +:+ m2 ∧ Re.matches r1 m1 g g1 ∧ Re.matches r2 m2 g1 g2.
Proof. inversion 1; subst. eauto 10. Qed.

Lemma matches_Chr_inv c m g g' :
  Re.matches (Re.Chr c) m g g' ->
  exists a, m = String a EmptyString ∧ Re.in_class c a = true ∧ g' = g.
Proof. inversion 1; subst. eauto 10. Qed.

Lemma matches_Plus_inv c m g g' :
  Re.matches (Re.Plus c) m g g' ->
  m ≠ EmptyString
  ∧ forallb (Re.in_class c) (list_ascii_of_string m) = true ∧ g' = g.
Proof. inversion 1; subst. auto. Qed.

Lemma matches_Group_inv n r m g g' :
  Re.matches (Re.Group n r) m g g' ->
  exists g1, Re.matches r m g g1 ∧ g' = (n, m) :: g1.
Proof. inversion 1; subst. eauto 10. Qed.

Lemma matches_literal s : forall m g g',
  Re.matches (Re.literal s) m g g' -> m = s.
Proof.
  induction s as [|a s IH]; intros m g g' M; cbn [Re.literal] in M.
  - now inversion M.
  - inversion M as [| | |? ? m1 m2 ? g1 ? M1 M2| | |]; subst; clear M.
    inversion M1 as [|? b ? Hb| | | | |]; subst; clear M1.
    cbn in Hb. apply Ascii.eqb_eq in Hb as ->.
    rewrite append_cons, append_nil_l. f_equal. eapply IH, M2.
Qed.


(** A match of the blame pattern is the revision id, a blank, the digits
    of the group [line], and more. *)
Lemma blame_pattern_text sha m g :
  Re.matches (blame_pattern sha) m [] g ->
  exists v tail,
    m = sha +:+ " " +:+ v +:+ tail ∧ g = [("line", v)] ∧ digits v.
Proof.
  unfold blame_pattern. intros M.
  apply matches_Seq_inv in M as (m1 & m2 & g1 & -> & M1 & M).
  pose proof (matches_literal _ _ _ _ M1) as ->.
  apply matches_groupless in M1 as ->; [|apply groupless_literal].
  apply matches_Seq_inv in M as (m3 & m4 & g3 & -> & M3 & M).
  apply matches_Chr_inv in M3 as (a & -> & Ha & ->).
  cbn in Ha. apply Ascii.eqb_eq in Ha as ->.
  apply matches_Seq_inv in M as (v & tail & g5 & -> & M5 & M).
  apply matches_Group_inv in M5 as (g6 & M5 & ->).
  apply matches_Plus_inv in M5 as (Hne & Hd & ->).
  apply matches_Seq_inv in M as (m7 & m8 & g7 & -> & M7 & M).
  apply matches_Chr_inv in M7 as (b & -> & _ & ->).
  apply matches_Plus_inv in M as (_ & _ & ->).
  exists v, (String b EmptyString +:+ m8). now repeat split.
Qed.

Lemma length_le_append pre m post :
  String.length m <= String.length (pre +:+ m +:+ post).
Proof. rewrite !length_append. lia. Qed.

(** The group [line] of a line that matches: digits, no longer than the
    line, which holds the revision id. *)
Lemma line_field_inv how sha line v :
  line_field how sha line = Some v ->
  attempt how (blame_pattern sha) line = Some [("line", v)]
  ∧ digits v ∧ contains sha line ∧ String.length v <= String.length line.
Proof.
  unfold line_field.
  destruct (attempt how (blame_pattern sha) line) as [g|] eqn:E; [|easy].
  destruct (attempt_at _ _ _ _ E) as (pre & m & post & -> & M).
  destruct (blame_pattern_text _ _ _ M) as (v' & tail & -> & -> & Hv).
  change (Re.group [("line", v')] "line") with (Some v').
  cbn [mbind option_bind]. intros [= ->]. repeat split; try apply Hv.
  - exists pre, ((" " +:+ v +:+ tail) +:+ post). now rewrite !append_assoc.
  - etransitivity; [|apply length_le_append].
    rewrite !length_append. lia.
Qed.

Lemma line_field_attempt how sha line :
  line_field how sha line = None -> attempt how (blame_pattern sha) line = None.
Proof.
  unfold line_field.
  destruct (attempt how (blame_pattern sha) line) as [g|] eqn:E; [|easy].
  destruct (attempt_sound _ _ _ _ E) as [m M].
  destruct (blame_pattern_captures _ _ _ M) as (v & -> & _). discriminate.
Qed.

(** A header line gives its first number, under either matching. *)
Lemma line_field_header how sha d1 d2 rest :
  digits d1 -> digits d2 ->
  line_field how sha (sha +:+ " " +:+ d1 +:+ " " +:+ d2 +:+ rest) = Some d1.
Proof.
  intros H1 H2. unfold line_field.
  rewrite (attempt_of_match how _ _ _ (blame_header_match sha _ _ rest H1 H2)).
  reflexivity.
Qed.

(** A line without the revision id gives nothing, under either matching. *)
Lemma line_field_absent how sha line :
  ~ contains sha line -> line_field how sha line = None.
Proof.
  intros H. destruct (line_field how sha line) as [v|] eqn:E; [|reflexivity].
  now destruct (line_field_inv _ _ _ _ E) as (_ & _ & C & _).
Qed.

Lemma line_number_field how sha line :
  line_number how sha line = Py.decimal <$> line_field how sha line.
Proof.
  unfold line_number, line_field.
  destruct (attempt how (blame_pattern sha) line) as [g|]; [|reflexivity].
  cbn [mbind option_bind]. now destruct (Re.group g "line").
Qed.

(** *** Converting the fields *)

Lemma int_digits v :
  digits v ->
  int v = if convertible v then mret (Py.decimal v) else raise ValueError.
Proof.
  intros [Hne Hd]. unfold int, convertible. destruct v; [easy|]. now rewrite Hd.
Qed.

(** The conversions succeed together, or the first field too long for
    [int] raises [ValueError]; nothing else is raised, every match binding
    [line] to a run of digits. *)
Lemma blame_line_numbers how sha lines :
  mapM (fun it => match it with
                  | Bare v => b ← the v; int b
                  | Tuple _ => raise TypeError
                  end)
       (filter_lines how lines (blame_pattern sha) ["line"])
  = (if forallb convertible (omap (line_field how sha) lines)
     then Ok (map Py.decimal (omap (line_field how sha) lines))
     else Raise ValueError,
     []).
Proof.
  induction lines as [|l lines IH]; [reflexivity|].
  unfold filter_lines in *. cbn [flat_map omap list_omap].
  destruct (line_field how sha l) as [v|] eqn:E.
  - destruct (line_field_inv _ _ _ _ E) as (Ea & Hv & _).
    rewrite Ea. change (Re.group [("line", v)] "line") with (Some v).
    cbn [app mapM the forallb map]. rewrite bind_ret_l, (int_digits _ Hv).
    destruct (convertible v); [|reflexivity].
    rewrite bind_ret_l, IH. cbn [andb].
    now destruct (forallb convertible _).
  - now rewrite (line_field_attempt _ _ _ E).
Qed.

(** [modified_lines], once blame has succeeded. *)
Lemma modified_lines_blame git how filename status commit out :
  is_modification status = true ->
  git (blame_porcelain filename) = Exited 0 out ->
  modified_lines git how filename (Some status) commit
  = (if forallb convertible
          (omap (line_field how match commit with
                                | Some c => c
                                | None => zero40
                                end)
                (Py.split Py.linesep out))
     then Ok (Some (map Py.decimal
                      (omap (line_field how match commit with
                                            | Some c => c
                                            | None => zero40
                                            end)
                            (Py.split Py.linesep out))))
     else Raise ValueError,
     [blame_porcelain filename]).
Proof.
  intros Hst E. unfold modified_lines. fold (is_modification status).
  rewrite Hst. cbn [negb]. rewrite zero_revision.
  rewrite (check_output_zero _ _ _ E), bind_Ok, blame_line_numbers.
  destruct commit;
    destruct (forallb convertible _); cbn; try reflexivity;
    now destruct (map Py.decimal _).
Qed.

Lemma entries_fields how sha lines ns :
  blame_entries sha lines ns ->
  forallb convertible (omap (line_field how sha) lines) = true
  ∧ map Py.decimal (omap (line_field how sha) lines) = ns.
Proof.
  induction 1 as [|d1 d2 rest ls ns H1 L1 H2 _ [IHc IHn]|l ls ns Hl _ IH];
    cbn [omap list_omap].
  - now split.
  - rewrite (line_field_header how sha d1 d2 rest H1 H2).
    cbn [forallb map]. rewrite IHc, IHn. split; [|reflexivity].
    apply andb_true_intro. split; [|reflexivity].
    unfold convertible. now apply Nat.leb_le.
  - now rewrite (line_field_absent how sha l Hl).
Qed.

Lemma prefix_append sub post : String.prefix sub (sub +:+ post) = true.
Proof.
  induction sub as [|a sub IH]; [now destruct post|].
  rewrite append_cons. cbn. now destruct (ascii_dec a a).
Qed.

Lemma contains_occurs sub s : contains sub s -> occurs sub s = true.
Proof.
  intros (pre & post & ->). induction pre as [|a pre IH].
  - rewrite append_nil_l. destruct sub as [|b sub].
    + now destruct post.
    + rewrite append_cons. cbn [occurs]. rewrite <- append_cons.
      now rewrite prefix_append.
  - rewrite append_cons. cbn [occurs]. rewrite IH. apply orb_true_r.
Qed.

Lemma not_contains sub s : occurs sub s = false -> ~ contains sub s.
Proof. intros H C. apply contains_occurs in C. congruence. Qed.

(** *** With status ["M "] and no commit *)




(** With matching anchored at the start of the line, the same file gives
    its two lines. *)
Example modified_lines_ids_anchored :
  modified_lines repo_ids Anchored "ids.txt" (Some "M ") None
  = (Ok (Some [1%Z; 2%Z]), [blame_porcelain "ids.txt"]).
Proof. vm_compute. reflexivity. Qed.

(** ** Pairs of file and mode *)

(** Building the pairs never raises: every match of a pattern with the
    two groups binds both.  Each matching line contributes its pair. *)
Lemma two_group_pairs how root pattern (post : string -> string) lines :
  (forall m g, Re.matches pattern m [] g ->
               exists f mode, g = [("filename", f); ("mode", mode)]) ->
  exists pairs,
    mapM (fun it =>
            '(filename, mode) ← unpack2 it;
            mret (Py.join root (_remove_filename_quotes filename), post mode))
         (filter_lines how lines pattern ["filename"; "mode"])
    = mret pairs
    ∧ forall line f mode,
        In line lines ->
        attempt how pattern line = Some [("filename", f); ("mode", mode)] ->
        In (Py.join root (_remove_filename_quotes f), post mode) pairs.
Proof.
  intros Hcap. induction lines as [|l lines (pairs & E & H)].
  - exists []. split; [reflexivity|]. intros ? ? ? [].
  - unfold filter_lines in *. cbn [flat_map].
    destruct (attempt how pattern l) as [g|] eqn:El.
    + destruct (attempt_sound _ _ _ _ El) as [m Hm].
      destruct (Hcap _ _ Hm) as (f & mode & ->).
      exists ((Py.join root (_remove_filename_quotes f), post mode) :: pairs).
      split.
      * change (map (Re.group [("filename", f); ("mode", mode)])
                  ["filename"; "mode"]) with [Some f; Some mode].
        cbn [app mapM unpack2 the]. rewrite E, !bind_ret_l. reflexivity.
      * intros line f' mode' [<-|Hin] Hl.
        -- rewrite El in Hl. injection Hl as -> ->. now left.
        -- right. eapply H; eassumption.
    + exists pairs. split; [exact E|].
      intros line f mode [<-|Hin] Hl; [congruence|]. eapply H; eassumption.
Qed.

(** ** Files modified by a list of commits *)

Lemma calls_bind {A B} (m : M A) (f : A -> M B) :
  calls (m ≫= f)
  = calls m ++ match result m with Ok a => calls (f a) | Raise _ => [] end.
Proof.
  destruct m as [[a|e] log].
  - now rewrite bind_Ok.
  - cbn. now rewrite app_nil_r.
Qed.

Lemma calls_mapM {A B} (f : A -> M B) (l : list A) :
  (forall x, calls (f x) = []) -> calls (mapM f l) = [].
Proof.
  intros Hf. induction l as [|x l IH]; [reflexivity|].
  cbn [mapM]. rewrite calls_bind, Hf. cbn [app].
  destruct (result (f x)); [|reflexivity].
  rewrite calls_bind, IH. cbn [app]. now destruct (result (mapM f l)).
Qed.

Lemma calls_the v : calls (the v) = [].
Proof. now destruct v. Qed.

Lemma calls_unpack2 it : calls (unpack2 it) = [].
Proof.
  destruct it as [v|[|a [|b [|c vs]]]]; try reflexivity.
  cbn [unpack2]. rewrite calls_bind, calls_the. cbn [app].
  destruct (result (the a)); [|reflexivity].
  rewrite calls_bind, calls_the. cbn [app].
  now destruct (result (the b)).
Qed.

Lemma calls_check_output git c : calls (check_output git c) = [c].
Proof. unfold check_output. now destruct (git c) as [[| |]|]. Qed.

Lemma calls_decode_utf8 b : calls (decode_utf8 b) = [].
Proof. unfold decode_utf8. now destruct (Py.utf8_valid b). Qed.

(** Whatever comes of it, looking at one commit runs diff-tree on it and
    nothing else. *)
Lemma calls_modified_files_with_commit git how root commit :
  calls (_modified_files_with_commit git how root commit) = [diff_tree commit].
Proof.
  unfold _modified_files_with_commit.
  rewrite calls_bind, calls_check_output.
  destruct (result (check_output git (diff_tree commit))); [|reflexivity].
  rewrite calls_bind, calls_decode_utf8. cbn [app].
  destruct (result (decode_utf8 a)); [|reflexivity].
  rewrite calls_bind, calls_mapM.
  - cbn [app]. now destruct (result (mapM _ _)).
  - intros it. rewrite calls_bind, calls_unpack2. cbn [app].
    now destruct (result (unpack2 it)) as [[? ?]|].
Qed.

Lemma calls_mapM_commits git how root commits :
  forall c,
    In c (calls (mapM (_modified_files_with_commit git how root) commits)) ->
    exists commit, In commit commits ∧ c = diff_tree commit.
Proof.
  induction commits as [|x commits IH]; intros c; [intros []|].
  cbn [mapM]. rewrite calls_bind, calls_modified_files_with_commit.
  cbn [app]. intros [<-|Hin]; [exists x; split; [now left|reflexivity]|].
  destruct (result (_modified_files_with_commit git how root x));
    [|destruct Hin].
  rewrite calls_bind in Hin. apply in_app_or in Hin as [Hin|Hin].
  - destruct (IH _ Hin) as (commit & ? & ?). exists commit. split; [now right|easy].
  - destruct (result (mapM _ commits)); destruct Hin.
Qed.

(** The loop of [modified_files], started from any accumulator. *)
Lemma commits_loop git how root commits (acc : gmap string string) :
  for_in commits (fun list_of_modified commit =>
    modified_files_commit ← _modified_files_with_commit git how root commit;
    mret (modified_files_commit ∪ list_of_modified)) acc
  = (ms ← mapM (_modified_files_with_commit git how root) commits;
     mret (foldl (fun acc m => m ∪ acc) acc ms)).
Proof.
  revert acc. induction commits as [|c commits IH]; intros acc; [reflexivity|].
  cbn [for_in mapM]. rewrite !bind_assoc. apply bind_ext. intros m.
  rewrite bind_ret_l, IH, !bind_assoc. apply bind_ext. intros ms.
  now rewrite bind_ret_l.
Qed.

Lemma lookup_merge_from (acc : gmap string string) ms path :
  foldl (fun acc m => m ∪ acc) acc ms !! path
  = foldl (fun o (m : gmap string string) =>
             match m !! path with Some v => Some v | None => o end)
          (acc !! path) ms.
Proof.
  revert acc. induction ms as [|m ms IH]; intros acc; [reflexivity|].
  cbn [foldl]. rewrite IH. f_equal.
  rewrite lookup_union. now destruct (m !! path), (acc !! path).
Qed.

(** A diff-tree that succeeds with well-formed text yields a map. *)
Lemma modified_files_with_commit_returns git how root commit out :
  git (diff_tree commit) = Exited 0 out ->
  Py.utf8_valid out = true ->
  exists m,
    _modified_files_with_commit git how root commit = (Ok m, [diff_tree commit]).
Proof.
  intros Hgit Hutf.
  destruct (two_group_pairs how root commit_pattern (fun m => m +:+ " ")
              (Py.split Py.linesep out) commit_pattern_captures)
    as (pairs & E & _).
  exists (dict pairs). unfold _modified_files_with_commit.
  rewrite (check_output_zero _ _ _ Hgit), bind_Ok.
  unfold decode_utf8. rewrite Hutf, bind_ret_l, E, bind_ret_l. reflexivity.
Qed.

Lemma mapM_commits_returns git how root commits :
  (forall c, In c commits ->
     exists out, git (diff_tree c) = Exited 0 out ∧ Py.utf8_valid out = true) ->
  exists ms,
    mapM (_modified_files_with_commit git how root) commits
    = (Ok ms, map diff_tree commits).
Proof.
  induction commits as [|c commits IH]; intros H.
  - now exists [].
  - destruct (H c (or_introl eq_refl)) as (out & Hgit & Hutf).
    destruct (modified_files_with_commit_returns git how root c out Hgit Hutf)
      as [m Em].
    destruct IH as [ms Ems]; [intros c' Hc'; apply H; now right|].
    exists (m :: ms). cbn [mapM map].
    rewrite Em, bind_Ok, Ems, bind_Ok. cbn. now rewrite app_nil_r.
Qed.

Lemma lookup_merge ms path : merge ms !! path = last_status path ms.
Proof. unfold merge, last_status. now rewrite lookup_merge_from. Qed.

(** C4. With an absolute root and a non-empty list of commits,
    [modified_files] looks at each commit in order and returns the
    per-commit maps merged in that order: a path has the status the last
    commit that touches it gives it.  Only diff-tree is run, never the
    status query; and when every diff-tree succeeds with well-formed text,
    the merged map is returned. *)
Theorem modified_files_merges_commits :
  forall git how root tracked_only commits,
    Py.isabs root = true -> commits ≠ [] ->
    modified_files git how root tracked_only (Some commits)
    = (ms ← mapM (_modified_files_with_commit git how root) commits;
       mret (merge ms))
    ∧ (forall ms path, merge ms !! path = last_status path ms)
    ∧ (forall ms m path v,
         m !! path = Some v -> merge (ms ++ [m]) !! path = Some v)
    ∧ ~ In status_porcelain
          (calls (modified_files git how root tracked_only (Some commits)))
    ∧ ((forall c, In c commits ->
          exists out,
            git (diff_tree c) = Exited 0 out ∧ Py.utf8_valid out = true) ->
       exists ms,
         mapM (_modified_files_with_commit git how root) commits
         = (Ok ms, map diff_tree commits)
         ∧ modified_files git how root tracked_only (Some commits)
           = (Ok (merge ms), map diff_tree commits)).
Proof.
  intros git how root tracked_only commits Habs Hne.
  assert (E : modified_files git how root tracked_only (Some commits)
              = (ms ← mapM (_modified_files_with_commit git how root) commits;
                 mret (merge ms))).
  { unfold modified_files, assert. rewrite Habs, bind_ret_l.
    destruct commits as [|c commits]; [easy|].
    cbn [truthy default]. apply commits_loop. }
  split; [exact E|]. split; [apply lookup_merge|]. split; [|split].
  - intros ms m path v Hv. rewrite lookup_merge. unfold last_status.
    rewrite foldl_app. cbn [foldl]. now rewrite Hv.
  - rewrite E, calls_bind. intros Hin. apply in_app_or in Hin as [Hin|Hin].
    + apply calls_mapM_commits in Hin as (commit & _ & Hc). discriminate Hc.
    + destruct (result (mapM _ commits)); destruct Hin.
  - intros H. destruct (mapM_commits_returns git how root commits H) as [ms P].
    exists ms. split; [exact P|].
    rewrite E, P, bind_Ok. cbn. now rewrite app_nil_r.
Qed.

(** [commit1] adds [src/f.py], [commit2] modifies it: the file is ["M "]. *)
Lemma modified_files_merges_commits_witness :
  exists m,
    modified_files repo_two_commits Anywhere "/repo" false
      (Some [commit1; commit2])
    = (Ok m, [diff_tree commit1; diff_tree commit2])
    ∧ m !! "/repo/src/f.py" = Some "M "
    ∧ ~ In status_porcelain
          (calls (modified_files repo_two_commits Anywhere "/repo" false
                    (Some [commit1; commit2]))).
Proof.
  destruct (modified_files_merges_commits repo_two_commits Anywhere "/repo"
              false [commit1; commit2] eq_refl ltac:(discriminate))
    as (E & L & _ & N & _).
  assert (P : mapM (_modified_files_with_commit repo_two_commits Anywhere
                      "/repo") [commit1; commit2]
              = (Ok [dict [("/repo/src/f.py", "A ")];
                     dict [("/repo/src/f.py", "M ")]],
                 [diff_tree commit1; diff_tree commit2]))
    by (vm_compute; reflexivity).
  rewrite P in E. rewrite bind_Ok in E.
  eexists. split; [exact E|]. split; [|exact N].
  rewrite L. vm_compute. reflexivity.
Defined.

(** ** Quoted file names in the status output *)

Lemma substring_prefix (s1 s2 : string) :
  substring 0 (String.length s1) (s1 +:+ s2) = s1.
Proof.
  induction s1 as [|a s1 IH]; [now destruct s2|].
  rewrite append_cons. cbn. now rewrite IH.
Qed.

Lemma endswith_append (p s : string) : Py.endswith p (s +:+ p) = true.
Proof.
  induction s as [|a s IH].
  - rewrite append_nil_l. destruct p as [|b p]; [reflexivity|].
    change (Py.endswith (String b p) (String b p))
      with (String.eqb (String b p) (String b p)
            || Py.endswith (String b p) p).
    now rewrite String.eqb_refl.
  - rewrite append_cons.
    change (Py.endswith p (String a (s +:+ p)))
      with (String.eqb (String a (s +:+ p)) p || Py.endswith p (s +:+ p)).
    rewrite IH. apply orb_true_r.
Qed.

Lemma startswith_char (a : ascii) (s : string) :
  Py.startswith (String a EmptyString) (String a s) = true.
Proof.
  unfold Py.startswith. cbn. destruct (ascii_dec a a); [now destruct s|easy].
Qed.

(** A name between two quotes loses exactly these two characters. *)
Lemma remove_filename_quotes_wrapped body :
  _remove_filename_quotes (dquote +:+ body +:+ dquote) = body.
Proof.
  unfold _remove_filename_quotes.
  assert (E : Py.endswith dquote (dquote +:+ body +:+ dquote) = true).
  { rewrite <- append_assoc. apply endswith_append. }
  rewrite E. clear E.
  unfold dquote at 2 4. rewrite !append_cons, !append_nil_l.
  unfold dquote at 1. rewrite startswith_char. cbn [andb].
  unfold Py.slice_1_m1. cbn [String.length substring].
  rewrite length_append. cbn [String.length dquote].
  replace (S (String.length body + 1) - 2) with (String.length body) by lia.
  apply substring_prefix.
Qed.

(** A name that is a single quote starts and ends with it, and is left
    empty. *)
Example remove_filename_quotes_lone_quote :
  _remove_filename_quotes dquote = EmptyString.
Proof. reflexivity. Qed.

(** Without a quote at both ends the name is unchanged. *)
Example remove_filename_quotes_plain :
  _remove_filename_quotes "src/f.py" = "src/f.py"
  ∧ _remove_filename_quotes (dquote +:+ "half") = dquote +:+ "half".
Proof. split; reflexivity. Qed.

Lemma join_ends_with root name : exists pre, Py.join root name = pre +:+ name.
Proof.
  unfold Py.join. destruct (Py.startswith "/" name).
  - now exists EmptyString.
  - destruct (_ || _).
    + now exists root.
    + exists (root +:+ "/"). now rewrite append_assoc.
Qed.

Lemma split_lines_no_sep sep s : forall l,
  In l (Py.split sep s) ->
  forallb (fun a => negb (Ascii.eqb a sep)) (list_ascii_of_string l) = true.
Proof.
  induction s as [|a s IH]; intros l; cbn [Py.split].
  - intros [<-|[]]. reflexivity.
  - destruct (Ascii.eqb a sep) eqn:Ha.
    + intros [<-|Hin]; [reflexivity|now apply IH].
    + destruct (Py.split sep s) as [|h t].
      * intros [<-|[]]. cbn. now rewrite Ha.
      * intros [<-|Hin].
        -- cbn. rewrite Ha. apply IH. now left.
        -- apply IH. now right.
Qed.

Lemma plus_takes_all {A} c m acc g (k : @Re.cont A) x :
  m ≠ EmptyString ->
  forallb (Re.in_class c) (list_ascii_of_string m) = true ->
  k (acc +:+ m) EmptyString g = Some x ->
  Re.plus c m acc g k = Some x.
Proof.
  intros Hne Hall Hk. rewrite <- (append_nil_r m) at 1.
  now apply plus_takes_run.
Qed.

(** A status line made of a mode, a blank and a name matches from its
    first character; the groups are the mode and the whole name. *)
Lemma status_line_match tracked_only mode f :
  In mode (status_modes tracked_only) ->
  f ≠ EmptyString ->
  forallb (Re.in_class Re.Any) (list_ascii_of_string f) = true ->
  Re.match_ (status_pattern tracked_only) (mode +:+ " " +:+ f)
  = Some [("filename", f); ("mode", mode)].
Proof.
  intros Hin Hne Hall. unfold Re.match_.
  destruct tracked_only; cbn in Hin;
    repeat (destruct Hin as [<-|Hin]); try destruct Hin;
    rewrite !append_cons, !append_nil_l; cbn;
    erewrite plus_takes_all; try reflexivity; try assumption.
Qed.

Lemma dict_from_In (pairs : list (string * string)) :
  forall (acc : gmap string string) k,
    is_Some (acc !! k) \/ (exists v, In (k, v) pairs) ->
    is_Some (foldl (fun d kv => <[kv.1 := kv.2]> d) acc pairs !! k).
Proof.
  induction pairs as [|[k' v'] pairs IH]; intros acc k H; cbn [foldl].
  - destruct H as [H|[v []]]. exact H.
  - apply IH. destruct H as [H|[v [[= -> ->]|Hin]]].
    + left. rewrite lookup_insert_is_Some. destruct (decide (k' = k)); auto.
    + left. cbn. rewrite lookup_insert_eq. eauto.
    + right. eauto.
Qed.

Lemma dict_In pairs k v : In (k, v) pairs -> is_Some (dict pairs !! k).
Proof. intros H. apply dict_from_In. right. eauto. Qed.

Lemma status_pairs how root tracked_only lines :
  exists pairs,
    mapM (fun it =>
            '(filename, mode) ← unpack2 it;
            mret (Py.join root (_remove_filename_quotes filename), mode))
         (filter_lines how lines (status_pattern tracked_only)
            ["filename"; "mode"])
    = mret pairs
    ∧ forall line f mode,
        In line lines ->
        attempt how (status_pattern tracked_only) line
        = Some [("filename", f); ("mode", mode)] ->
        In (Py.join root (_remove_filename_quotes f), mode) pairs.
Proof.
  apply (two_group_pairs how root (status_pattern tracked_only) (fun m => m)).
  apply status_pattern_captures.
Qed.

(** C8. Whenever a line of the status output is a mode, a blank and a
    name between double quotes, [modified_files] returns a map with the key
    made of the root and the name without these two quotes: one leading
    and one trailing quote are removed and every other character of the
    name, escape sequences included, is kept. *)
Theorem modified_files_strips_quotes :
  forall git how root tracked_only out mode body,
    Py.isabs root = true ->
    git status_porcelain = Exited 0 out ->
    Py.utf8_valid out = true ->
    In mode (status_modes tracked_only) ->
    In (mode +:+ " " +:+ dquote +:+ body +:+ dquote)
       (Py.split Py.linesep out) ->
    _remove_filename_quotes (dquote +:+ body +:+ dquote) = body
    ∧ exists m,
        result (modified_files git how root tracked_only None) = Ok m
        ∧ is_Some (m !! Py.join root body)
        ∧ exists pre, Py.join root body = pre +:+ body.
Proof.
  intros git how root tracked_only out mode body Habs Hgit Hutf Hmode Hline.
  split; [apply remove_filename_quotes_wrapped|].
  destruct (status_pairs how root tracked_only (Py.split Py.linesep out))
    as (pairs & E & H).
  exists (dict pairs). split; [|split; [|apply join_ends_with]].
  - unfold modified_files, assert. rewrite Habs, bind_ret_l. cbn [truthy].
    rewrite (check_output_zero _ _ _ Hgit), bind_Ok.
    unfold decode_utf8. rewrite Hutf, bind_ret_l, E, bind_ret_l. reflexivity.
  - apply (dict_In _ _ mode).
    rewrite <- (remove_filename_quotes_wrapped body) at 1.
    apply (H _ _ _ Hline). apply attempt_of_match.
    apply split_lines_no_sep in Hline.
    rewrite !chars_append, !forallb_app in Hline.
    apply andb_prop in Hline as [_ Hline]. apply andb_prop in Hline as [_ Hline].
    rewrite <- !forallb_app, <- !chars_append in Hline.
    apply status_line_match; [assumption| |exact Hline].
    unfold dquote. now rewrite append_cons.
Qed.

(** The status line [A  "weird name.txt"]. *)
Lemma modified_files_strips_quotes_witness :
  _remove_filename_quotes (dquote +:+ "weird name.txt" +:+ dquote)
  = "weird name.txt"
  ∧ exists m,
      result (modified_files repo_weird Anywhere "/repo" false None) = Ok m
      ∧ is_Some (m !! Py.join "/repo" "weird name.txt")
      ∧ exists pre, Py.join "/repo" "weird name.txt" = pre +:+ "weird name.txt".
Proof.
  apply (modified_files_strips_quotes repo_weird Anywhere "/repo" false
           ("A  " +:+ dquote +:+ "weird name.txt" +:+ dquote +:+ LF +:+
            "?? notes.txt" +:+ LF) "A " "weird name.txt").
  - reflexivity.
  - reflexivity.
  - reflexivity.
  - cbn. tauto.
  - vm_compute. tauto.
Defined.

(** * Further properties *)

(** ** Invocations that fail *)

Lemma check_output_fails git c :
  invocation_fails (git c) ->
  check_output git c = (Raise (exn_of (git c)), [c]).
Proof.
  unfold check_output, invocation_fails.
  destruct (git c) as [[| |] out|]; intros H; try reflexivity. now destruct H.
Qed.

(** X1. [commits_head_to_main] returns the empty list exactly when the log
    command exits with a non-zero code; that exit is swallowed, with no
    exception and no further command. *)
Theorem commits_head_to_main_empty_iff_failure :
  forall git master rc out,
    git (log_to_head master) = Exited rc out ->
    (result (commits_head_to_main git master) = Ok [] <-> rc ≠ 0%Z)
    ∧ (rc ≠ 0%Z ->
       commits_head_to_main git master = (Ok [], [log_to_head master])).
Proof.
  intros git master rc out E.
  assert (F : rc ≠ 0%Z ->
              commits_head_to_main git master = (Ok [], [log_to_head master])).
  { intros Hrc. unfold commits_head_to_main.
    now rewrite (check_output_nonzero _ _ _ _ Hrc E). }
  split; [|exact F]. split.
  - intros R Hrc. subst rc.
    now apply (commits_head_to_main_success_nonempty git master out E).
  - intros Hrc. now rewrite (F Hrc).
Qed.

Lemma commits_head_to_main_empty_iff_failure_witness :
  (result (commits_head_to_main no_repo "main") = Ok [] <-> 128%Z ≠ 0%Z)
  ∧ (128%Z ≠ 0%Z ->
     commits_head_to_main no_repo "main" = (Ok [], [log_to_head "main"])).
Proof.
  apply (commits_head_to_main_empty_iff_failure no_repo "main" 128
           ("fatal: not a git repository" +:+ LF)).
  reflexivity.
Defined.

(** X2. [modified_lines] does not guard the blame command: with a status
    that runs blame, a blame that fails raises its exception whatever the
    commit, and [modified_lines_for_pr] over a non-empty list of commits
    raises it after that single blame, the later commits never being
    looked at. *)
Theorem blame_failure_propagates :
  forall git how filename status,
    is_modification status = true ->
    invocation_fails (git (blame_porcelain filename)) ->
    (forall commit,
       modified_lines git how filename (Some status) commit
       = (Raise (exn_of (git (blame_porcelain filename))),
          [blame_porcelain filename]))
    ∧ (forall c commits,
         modified_lines_for_pr git how filename (Some status) (c :: commits)
         = (Raise (exn_of (git (blame_porcelain filename))),
            [blame_porcelain filename])).
Proof.
  intros git how filename status Hst Hfail.
  assert (E : forall commit,
             modified_lines git how filename (Some status) commit
             = (Raise (exn_of (git (blame_porcelain filename))),
                [blame_porcelain filename])).
  { intros commit. unfold modified_lines. fold (is_modification status).
    rewrite Hst. cbn [negb]. now rewrite (check_output_fails _ _ Hfail). }
  split; [exact E|]. intros c commits.
  unfold modified_lines_for_pr. cbn [for_in]. now rewrite E.
Qed.

Lemma blame_failure_propagates_witness :
  (forall commit,
     modified_lines repo_broken Anywhere "gone.py" (Some "MM") commit
     = (Raise (CalledProcessError 128 ("fatal: no such path" +:+ LF)),
        [blame_porcelain "gone.py"]))
  ∧ (forall c commits,
       modified_lines_for_pr repo_broken Anywhere "gone.py" (Some "MM")
         (c :: commits)
       = (Raise (CalledProcessError 128 ("fatal: no such path" +:+ LF)),
          [blame_porcelain "gone.py"])).
Proof.
  apply (blame_failure_propagates repo_broken Anywhere "gone.py" "MM").
  - reflexivity.
  - cbn. discriminate.
Defined.

(** The commit branch of [modified_files], as one pass over the commits. *)
Lemma modified_files_commits git how root tracked_only c commits :
  Py.isabs root = true ->
  modified_files git how root tracked_only (Some (c :: commits))
  = (ms ← mapM (_modified_files_with_commit git how root) (c :: commits);
     mret (merge ms)).
Proof.
  intros Habs. unfold modified_files, assert. rewrite Habs, bind_ret_l.
  cbn [truthy default]. apply commits_loop.
Qed.

Lemma modified_files_with_commit_fails git how root commit :
  invocation_fails (git (diff_tree commit)) ->
  _modified_files_with_commit git how root commit
  = (Raise (exn_of (git (diff_tree commit))), [diff_tree commit]).
Proof.
  intros H. unfold _modified_files_with_commit.
  now rewrite (check_output_fails _ _ H).
Qed.

Lemma mapM_commits_fails git how root pre c post :
  (forall x, In x pre ->
     exists out, git (diff_tree x) = Exited 0 out ∧ Py.utf8_valid out = true) ->
  invocation_fails (git (diff_tree c)) ->
  mapM (_modified_files_with_commit git how root) (pre ++ c :: post)
  = (Raise (exn_of (git (diff_tree c))), map diff_tree (pre ++ [c])).
Proof.
  intros Hpre Hc. induction pre as [|x pre IH]; cbn [app mapM map].
  - now rewrite (modified_files_with_commit_fails _ _ _ _ Hc).
  - destruct (Hpre x (or_introl eq_refl)) as (out & Hgit & Hutf).
    destruct (modified_files_with_commit_returns git how root x out Hgit Hutf)
      as [m ->].
    rewrite bind_Ok, IH; [reflexivity|]. intros y Hy. apply Hpre. now right.
Qed.

(** X3. The diff-tree calls of [modified_files] are not guarded: the first
    commit whose diff-tree fails ends the loop with that exception, after
    the commits before it were looked at in order; the commits after it are
    never looked at and no map is returned. *)
Theorem modified_files_stops_at_failing_commit :
  forall git how root tracked_only pre c post,
    Py.isabs root = true ->
    (forall x, In x pre ->
       exists out,
         git (diff_tree x) = Exited 0 out ∧ Py.utf8_valid out = true) ->
    invocation_fails (git (diff_tree c)) ->
    modified_files git how root tracked_only (Some (pre ++ c :: post))
    = (Raise (exn_of (git (diff_tree c))), map diff_tree (pre ++ [c])).
Proof.
  intros git how root tracked_only pre c post Habs Hpre Hc.
  assert (E : exists y ys, pre ++ c :: post = y :: ys)
    by (destruct pre; cbn; eauto).
  destruct E as (y & ys & E). rewrite E, modified_files_commits, <- E by easy.
  now rewrite (mapM_commits_fails _ _ _ _ _ _ Hpre Hc).
Qed.

Lemma modified_files_stops_at_failing_commit_witness :
  modified_files repo_broken Anywhere "/repo" false
    (Some ([commit1] ++ commit2 :: [commit1; commit1]))
  = (Raise (CalledProcessError 128 ("fatal: bad object" +:+ LF)),
     [diff_tree commit1; diff_tree commit2]).
Proof.
  apply (modified_files_stops_at_failing_commit repo_broken Anywhere "/repo"
           false [commit1] commit2 [commit1; commit1]).
  - reflexivity.
  - intros x [<-|[]]. eexists. split; reflexivity.
  - cbn. discriminate.
Defined.

Lemma modified_files_status_failure_propagates_aux git how root tracked_only
    commits :
  Py.isabs root = true ->
  commits = None \/ commits = Some [] ->
  invocation_fails (git status_porcelain) ->
  modified_files git how root tracked_only commits
  = (Raise (exn_of (git status_porcelain)), [status_porcelain]).
Proof.
  intros Habs Hc Hfail.
  unfold modified_files, assert. rewrite Habs, bind_ret_l.
  destruct Hc as [-> | ->]; cbn [truthy];
    now rewrite (check_output_fails _ _ Hfail).
Qed.

(** X4. Without commits ([None] or an empty list) [modified_files] asks for
    the status of the working tree, unguarded: a status command that fails
    raises its exception and no map is returned. *)
Theorem modified_files_status_failure_propagates :
  forall git how root tracked_only commits,
    Py.isabs root = true ->
    commits = None \/ commits = Some [] ->
    invocation_fails (git status_porcelain) ->
    modified_files git how root tracked_only commits
    = (Raise (exn_of (git status_porcelain)), [status_porcelain]).
Proof.
  intros. now apply modified_files_status_failure_propagates_aux.
Qed.

Lemma modified_files_status_failure_propagates_witness :
  modified_files no_git Anchored "/repo" true (Some [])
  = (Raise FileNotFoundError, [status_porcelain]).
Proof.
  apply (modified_files_status_failure_propagates no_git Anchored "/repo"
           true (Some [])).
  - reflexivity.
  - now right.
  - exact I.
Defined.

(** ** What the lookups return *)

Lemma length_lstrip s : String.length (Py.lstrip s) <= String.length s.
Proof.
  induction s as [|a s IH]; cbn; [lia|].
  destruct (Py.is_bytes_space a); cbn; lia.
Qed.

Lemma lstrip_blank ws : blank ws -> Py.lstrip ws = EmptyString.
Proof.
  unfold blank. induction ws as [|a ws IH]; cbn; [reflexivity|].
  intros H. apply andb_prop in H as [-> H]. auto.
Qed.

Lemma rstrip_cons a s :
  Py.rstrip (String a s)
  = match Py.rstrip s with
    | EmptyString =>
        if Py.is_bytes_space a then EmptyString else String a EmptyString
    | r => String a r
    end.
Proof. reflexivity. Qed.

Lemma rstrip_append_blank p ws :
  blank ws -> Py.rstrip (p +:+ ws) = Py.rstrip p.
Proof.
  intros Hws. induction p as [|a p IH].
  - rewrite append_nil_l. unfold blank in Hws.
    induction ws as [|b ws IHws]; [reflexivity|]. cbn in Hws.
    apply andb_prop in Hws as [Hb Hws].
    now rewrite rstrip_cons, (IHws Hws), Hb.
  - now rewrite append_cons, !rstrip_cons, IH.
Qed.

Lemma lstrip_append p ws :
  p ≠ EmptyString -> Py.lstrip p = p -> Py.lstrip (p +:+ ws) = p +:+ ws.
Proof.
  destruct p as [|a p]; [easy|]. intros _. cbn [Py.lstrip].
  rewrite append_cons. cbn [Py.lstrip].
  destruct (Py.is_bytes_space a); [|reflexivity].
  intros H. pose proof (length_lstrip p) as L. rewrite H in L. cbn in L. lia.
Qed.

(** [strip] undoes the blanks git puts after what it prints. *)
Lemma strip_append_blank p ws :
  trimmed p -> blank ws -> Py.strip (p +:+ ws) = p.
Proof.
  intros [Hl Hr] Hws. unfold Py.strip. destruct p as [|a p].
  - rewrite append_nil_l. now rewrite (lstrip_blank _ Hws).
  - rewrite (lstrip_append _ ws) by easy.
    now rewrite (rstrip_append_blank _ _ Hws).
Qed.

(** X5. When its command succeeds, [repository_root] returns what it
    printed without the blanks after it (the final line feed), as text,
    blanks inside a path being kept, whatever the other commands do; and
    so does [last_commit]. *)
Theorem lookups_return_trimmed_output :
  forall git p ws,
    trimmed p -> blank ws -> Py.utf8_valid p = true ->
    (git rev_parse_toplevel = Exited 0 (p +:+ ws) ->
     repository_root git = (Ok (Some p), [rev_parse_toplevel]))
    ∧ (git rev_parse_head = Exited 0 (p +:+ ws) ->
       last_commit git = (Ok (Some p), [rev_parse_head])).
Proof.
  intros git p ws T B U. split; intros E.
  - unfold repository_root. rewrite (check_output_zero _ _ _ E), bind_Ok.
    rewrite (strip_append_blank _ _ T B). unfold decode_utf8. now rewrite U.
  - unfold last_commit. rewrite (check_output_zero _ _ _ E), bind_Ok.
    rewrite (strip_append_blank _ _ T B). unfold decode_utf8. now rewrite U.
Qed.

(** A repository without commits still has its root returned; in a usual
    one [last_commit] returns the revision of [HEAD]. *)
Lemma lookups_return_trimmed_output_witness :
  repository_root repo_no_commits
  = (Ok (Some "/home/dev/empty"), [rev_parse_toplevel])
  ∧ repository_root repo_ahead
    = (Ok (Some "/home/dev/my repo"), [rev_parse_toplevel])
  ∧ last_commit repo_ahead = (Ok (Some commit2), [rev_parse_head]).
Proof.
  split; [|split].
  - apply (proj1 (lookups_return_trimmed_output repo_no_commits
                    "/home/dev/empty" LF
                    (conj eq_refl eq_refl) eq_refl eq_refl)).
    reflexivity.
  - apply (proj1 (lookups_return_trimmed_output repo_ahead
                    "/home/dev/my repo" LF
                    (conj eq_refl eq_refl) eq_refl eq_refl)).
    reflexivity.
  - apply (proj2 (lookups_return_trimmed_output repo_ahead commit2 LF
                    (conj eq_refl eq_refl) eq_refl eq_refl)).
    reflexivity.
Defined.

(** X6. The guard of the lookups covers the command only: when its
    command succeeds with output that is not UTF-8, [repository_root] raises
    [UnicodeDecodeError] instead of returning [None], whatever the other
    commands do; so does [last_commit], and so does [commits_head_to_main]
    instead of returning the empty list. *)
Theorem lookups_raise_on_undecodable_output :
  forall git out,
    Py.utf8_valid (Py.strip out) = false ->
    (git rev_parse_toplevel = Exited 0 out ->
     repository_root git = (Raise UnicodeDecodeError, [rev_parse_toplevel]))
    ∧ (git rev_parse_head = Exited 0 out ->
       last_commit git = (Raise UnicodeDecodeError, [rev_parse_head]))
    ∧ (forall master,
         git (log_to_head master) = Exited 0 out ->
         commits_head_to_main git master
         = (Raise UnicodeDecodeError, [log_to_head master])).
Proof.
  intros git out U. split; [|split]; [intros E|intros E|intros master E].
  - unfold repository_root. rewrite (check_output_zero _ _ _ E), bind_Ok.
    unfold decode_utf8. now rewrite U.
  - unfold last_commit. rewrite (check_output_zero _ _ _ E), bind_Ok.
    unfold decode_utf8. now rewrite U.
  - unfold commits_head_to_main.
    rewrite (check_output_zero _ _ _ E), bind_Ok.
    unfold decode_utf8. now rewrite U.
Qed.

(** An undecodable root next to a usual [HEAD] and a usual log; and an
    undecodable log. *)
Lemma lookups_raise_on_undecodable_output_witness :
  repository_root repo_latin1 = (Raise UnicodeDecodeError, [rev_parse_toplevel])
  ∧ last_commit repo_latin1 = (Ok (Some commit2), [rev_parse_head])
  ∧ commits_head_to_main repo_latin1 "main"
    = (Ok [commit2], [log_to_head "main"])
  ∧ commits_head_to_main repo_latin1_log "main"
    = (Raise UnicodeDecodeError, [log_to_head "main"]).
Proof.
  split; [|split; [|split]].
  - apply (proj1 (lookups_raise_on_undecodable_output repo_latin1
                    ("/home/dev/caf" +:+ String "233"%char EmptyString +:+ LF)
                    eq_refl)).
    reflexivity.
  - reflexivity.
  - reflexivity.
  - apply (proj2 (proj2 (lookups_raise_on_undecodable_output repo_latin1_log
                           (String "192"%char EmptyString +:+ LF) eq_refl))).
    reflexivity.
Defined.

(** ** The commits the log prints *)

Lemma hex_facts a :
  is_hex a = true ->
  Py.between 0 127 a = true
  ∧ Py.is_bytes_space a = false
  ∧ Re.in_class Re.Any a = true.
Proof.
  unfold is_hex, Py.between, Py.is_bytes_space, Re.in_class.
  intros H. assert (R : (48 <= N_of_ascii a <= 102)%N).
  { rewrite !orb_true_iff, !andb_true_iff, !N.leb_le in H. lia. }
  repeat split.
  - rewrite andb_true_iff, !N.leb_le. lia.
  - rewrite orb_false_iff, andb_false_iff, N.eqb_neq, !N.leb_gt. lia.
  - apply negb_true_iff, Ascii.eqb_neq. intros ->. cbn in R. lia.
Qed.

Lemma forallb_chars_impl (P Q : ascii -> bool) s :
  (forall a, P a = true -> Q a = true) ->
  forallb P (list_ascii_of_string s) = true ->
  forallb Q (list_ascii_of_string s) = true.
Proof.
  intros H. rewrite !forallb_forall. auto.
Qed.

Lemma utf8_valid_ascii s :
  forallb (Py.between 0 127) (list_ascii_of_string s) = true ->
  Py.utf8_valid s = true.
Proof.
  induction s as [|a s IH]; [reflexivity|]. cbn [list_ascii_of_string forallb].
  intros H. apply andb_prop in H as [Ha H]. cbn [Py.utf8_valid].
  rewrite Ha. auto.
Qed.

Lemma rstrip_nonblank s :
  forallb (fun a => negb (Py.is_bytes_space a)) (list_ascii_of_string s) = true ->
  Py.rstrip s = s.
Proof.
  induction s as [|a s IH]; [reflexivity|]. cbn [list_ascii_of_string forallb].
  intros H. apply andb_prop in H as [Ha H]. apply negb_true_iff in Ha.
  rewrite rstrip_cons, (IH H), Ha. now destruct s.
Qed.

Lemma rstrip_append_fixed p s :
  s ≠ EmptyString -> Py.rstrip s = s -> Py.rstrip (p +:+ s) = p +:+ s.
Proof.
  intros Hne Hs. induction p as [|a p IH]; [exact Hs|].
  rewrite append_cons, rstrip_cons, IH.
  destruct (p +:+ s) eqn:E; [|reflexivity].
  destruct p; [now rewrite append_nil_l in E|now rewrite append_cons in E].
Qed.

Lemma revision_trimmed c : revision c -> trimmed c ∧ one_line c.
Proof.
  intros [Hne Hc]. split; [split|].
  - destruct c as [|a c]; [easy|]. cbn in Hc. apply andb_prop in Hc as [Ha _].
    cbn. now destruct (hex_facts _ Ha) as (_ & -> & _).
  - apply rstrip_nonblank. revert Hc. apply forallb_chars_impl.
    intros a Ha. now destruct (hex_facts _ Ha) as (_ & -> & _).
  - revert Hc. apply forallb_chars_impl. intros a Ha. apply (hex_facts _ Ha).
Qed.

Lemma unlines_join_lines ls :
  ls ≠ [] -> unlines ls = join_lines ls +:+ LF.
Proof.
  induction ls as [|l [|l' ls] IH]; [easy| |]; intros _.
  - cbn [unlines join_lines]. now rewrite append_nil_r.
  - cbn [unlines join_lines] in *. rewrite IH by easy.
    now rewrite !append_assoc.
Qed.

Lemma join_lines_nonempty l ls : l ≠ EmptyString -> join_lines (l :: ls) ≠ EmptyString.
Proof.
  intros Hl. destruct ls; cbn [join_lines]; [exact Hl|].
  destruct l; [easy|]. now rewrite append_cons.
Qed.

Lemma split_one_line l : one_line l -> Py.split "010" l = [l].
Proof.
  unfold one_line. induction l as [|a l IH]; [reflexivity|].
  cbn [list_ascii_of_string forallb Py.split]. intros H.
  apply andb_prop in H as [Ha H]. cbn in Ha. apply negb_true_iff in Ha.
  now rewrite Ha, (IH H).
Qed.

Lemma split_line_then l rest :
  one_line l -> Py.split "010" (l +:+ LF +:+ rest) = l :: Py.split "010" rest.
Proof.
  unfold one_line. induction l as [|a l IH].
  - intros _. reflexivity.
  - cbn [list_ascii_of_string forallb]. intros H.
    apply andb_prop in H as [Ha H]. cbn in Ha. apply negb_true_iff in Ha.
    rewrite append_cons. cbn [Py.split]. now rewrite Ha, (IH H).
Qed.

Lemma split_join_lines ls :
  ls ≠ [] -> Forall one_line ls -> Py.split "010" (join_lines ls) = ls.
Proof.
  induction ls as [|l [|l' ls] IH]; [easy| |]; intros _ H.
  - apply split_one_line. now inversion H.
  - inversion H as [|? ? Hl H']; subst. cbn [join_lines].
    rewrite (split_line_then _ _ Hl). f_equal. now apply IH.
Qed.

Lemma join_lines_revisions cs :
  cs ≠ [] -> Forall revision cs ->
  trimmed (join_lines cs)
  ∧ forallb (Py.between 0 127) (list_ascii_of_string (join_lines cs)) = true.
Proof.
  induction cs as [|c [|c' cs] IH]; [easy| |]; intros _ H.
  - inversion H as [|? ? Hc _]; subst. cbn [join_lines].
    split; [apply (revision_trimmed _ Hc)|].
    destruct Hc as [_ Hc]. revert Hc. apply forallb_chars_impl.
    intros a Ha. apply (hex_facts _ Ha).
  - inversion H as [|? ? Hc H']; subst.
    destruct (IH ltac:(easy) H') as [[_ Hr] Hascii].
    destruct (revision_trimmed _ Hc) as [[Hl _] _].
    assert (Hne : join_lines (c' :: cs) ≠ EmptyString).
    { apply join_lines_nonempty. inversion H' as [|? ? [Hc' _] _]. exact Hc'. }
    cbn [join_lines] in *. split; [split|].
    + apply lstrip_append; [apply Hc|exact Hl].
    + rewrite <- append_assoc. now apply rstrip_append_fixed.
    + rewrite !chars_append, !forallb_app.
      apply andb_true_intro. split;
        [|apply andb_true_intro; split; [reflexivity|exact Hascii]].
      destruct Hc as [_ Hc]. revert Hc. apply forallb_chars_impl.
      intros a Ha. apply (hex_facts _ Ha).
Qed.

(** X7. When the log prints one revision id per line,
    [commits_head_to_main] returns exactly these ids, in the order
    printed. *)
Theorem commits_head_to_main_returns_log :
  forall git master cs,
    cs ≠ [] -> Forall revision cs ->
    git (log_to_head master) = Exited 0 (unlines cs) ->
    commits_head_to_main git master = (Ok cs, [log_to_head master]).
Proof.
  intros git master cs Hne Hcs E. unfold commits_head_to_main.
  rewrite (check_output_zero _ _ _ E), bind_Ok.
  destruct (join_lines_revisions cs Hne Hcs) as [T U].
  rewrite (unlines_join_lines _ Hne), (strip_append_blank _ LF T eq_refl).
  unfold decode_utf8. rewrite (utf8_valid_ascii _ U), bind_ret_l.
  rewrite split_join_lines; [reflexivity|exact Hne|].
  eapply Forall_impl; [exact Hcs|]. intros c Hc. apply (revision_trimmed _ Hc).
Qed.

Lemma commits_head_to_main_returns_log_witness :
  commits_head_to_main repo_ahead "main"
  = (Ok [commit2; commit1], [log_to_head "main"]).
Proof.
  apply (commits_head_to_main_returns_log repo_ahead "main" [commit2; commit1]).
  - discriminate.
  - repeat constructor; discriminate.
  - reflexivity.
Defined.

(** ** The map of modified files, line by line *)

Lemma pair_of_line_Some how root pattern post line f mode :
  attempt how pattern line = Some [("filename", f); ("mode", mode)] ->
  pair_of_line how root pattern post line
  = Some (Py.join root (_remove_filename_quotes f), post mode).
Proof. intros H. unfold pair_of_line. rewrite H. reflexivity. Qed.

Lemma pair_of_line_None how root pattern post line :
  attempt how pattern line = None ->
  pair_of_line how root pattern post line = None.
Proof. intros H. unfold pair_of_line. now rewrite H. Qed.

(** The pairs the code builds are those of the lines that match, in
    order. *)
Lemma pairs_of_lines how root pattern (post : string -> string) lines :
  (forall m g, Re.matches pattern m [] g ->
               exists f mode, g = [("filename", f); ("mode", mode)]) ->
  mapM (fun it =>
          '(filename, mode) ← unpack2 it;
          mret (Py.join root (_remove_filename_quotes filename), post mode))
       (filter_lines how lines pattern ["filename"; "mode"])
  = mret (omap (pair_of_line how root pattern post) lines).
Proof.
  intros Hcap. induction lines as [|l lines IH]; [reflexivity|].
  unfold filter_lines in *. cbn [flat_map omap list_omap].
  destruct (attempt how pattern l) as [g|] eqn:El.
  - destruct (attempt_sound _ _ _ _ El) as [m Hm].
    destruct (Hcap _ _ Hm) as (f & mode & ->).
    rewrite (pair_of_line_Some _ _ _ _ _ _ _ El).
    change (map (Re.group [("filename", f); ("mode", mode)])
              ["filename"; "mode"]) with [Some f; Some mode].
    cbn [app mapM unpack2 the]. rewrite IH, !bind_ret_l. reflexivity.
  - rewrite (pair_of_line_None _ _ _ _ _ El). exact IH.
Qed.

Lemma modified_files_status_returns git how root tracked_only commits out :
  Py.isabs root = true ->
  commits = None \/ commits = Some [] ->
  git status_porcelain = Exited 0 out ->
  Py.utf8_valid out = true ->
  modified_files git how root tracked_only commits
  = (Ok (dict (omap (pair_of_line how root (status_pattern tracked_only)
                       (fun m => m))
                    (Py.split Py.linesep out))),
     [status_porcelain]).
Proof.
  intros Habs Hc Hgit Hutf. unfold modified_files, assert.
  rewrite Habs, bind_ret_l.
  destruct Hc as [-> | ->]; cbn [truthy];
    rewrite (check_output_zero _ _ _ Hgit), bind_Ok;
    unfold decode_utf8; rewrite Hutf, bind_ret_l;
    rewrite (pairs_of_lines how root (status_pattern tracked_only)
               (fun m => m) _ (status_pattern_captures tracked_only));
    rewrite bind_ret_l; reflexivity.
Qed.

Lemma modified_files_with_commit_value git how root commit out :
  git (diff_tree commit) = Exited 0 out ->
  Py.utf8_valid out = true ->
  _modified_files_with_commit git how root commit
  = (Ok (dict (omap (pair_of_line how root commit_pattern
                       (fun m => m +:+ " "))
                    (Py.split Py.linesep out))),
     [diff_tree commit]).
Proof.
  intros Hgit Hutf. unfold _modified_files_with_commit.
  rewrite (check_output_zero _ _ _ Hgit), bind_Ok.
  unfold decode_utf8. rewrite Hutf, bind_ret_l.
  rewrite (pairs_of_lines how root commit_pattern (fun m => m +:+ " ") _
             commit_pattern_captures).
  rewrite bind_ret_l. reflexivity.
Qed.

(** A map that was returned comes from output that was read. *)
Lemma modified_files_status_inv git how root tracked_only commits m :
  Py.isabs root = true ->
  commits = None \/ commits = Some [] ->
  result (modified_files git how root tracked_only commits) = Ok m ->
  exists out,
    git status_porcelain = Exited 0 out
    ∧ Py.utf8_valid out = true
    ∧ m = dict (omap (pair_of_line how root (status_pattern tracked_only)
                        (fun m => m))
                     (Py.split Py.linesep out)).
Proof.
  intros Habs Hc R.
  destruct (git status_porcelain) as [rc out|] eqn:Hgit.
  - destruct (Z.eq_dec rc 0%Z) as [->|Hrc].
    + destruct (Py.utf8_valid out) eqn:Hutf.
      * rewrite (modified_files_status_returns _ _ _ _ _ _ Habs Hc Hgit Hutf)
          in R.
        injection R as <-. now exists out.
      * exfalso. revert R. unfold modified_files, assert.
        rewrite Habs, bind_ret_l.
        destruct Hc as [-> | ->]; cbn [truthy];
          rewrite (check_output_zero _ _ _ Hgit), bind_Ok;
          unfold decode_utf8; rewrite Hutf; discriminate.
    + exfalso. revert R.
      rewrite (modified_files_status_failure_propagates_aux git how root
                 tracked_only commits Habs Hc).
      * discriminate.
      * rewrite Hgit. exact Hrc.
  - exfalso. revert R.
    rewrite (modified_files_status_failure_propagates_aux git how root
               tracked_only commits Habs Hc).
    + discriminate.
    + now rewrite Hgit.
Qed.

Lemma modified_files_with_commit_inv git how root commit m :
  result (_modified_files_with_commit git how root commit) = Ok m ->
  exists out,
    git (diff_tree commit) = Exited 0 out
    ∧ Py.utf8_valid out = true
    ∧ m = dict (omap (pair_of_line how root commit_pattern
                        (fun m => m +:+ " "))
                     (Py.split Py.linesep out)).
Proof.
  intros R. destruct (git (diff_tree commit)) as [rc out|] eqn:Hgit.
  - destruct (Z.eq_dec rc 0%Z) as [->|Hrc].
    + destruct (Py.utf8_valid out) eqn:Hutf.
      * rewrite (modified_files_with_commit_value _ _ _ _ _ Hgit Hutf) in R.
        injection R as <-. now exists out.
      * exfalso. revert R. unfold _modified_files_with_commit.
        rewrite (check_output_zero _ _ _ Hgit), bind_Ok.
        unfold decode_utf8. rewrite Hutf. discriminate.
    + exfalso. revert R. rewrite modified_files_with_commit_fails.
      * discriminate.
      * rewrite Hgit. exact Hrc.
  - exfalso. revert R. rewrite modified_files_with_commit_fails.
    + discriminate.
    + now rewrite Hgit.
Qed.

(** *** What the groups hold *)

Lemma matches_any_of_literals ss : forall m g g',
  ss ≠ [] ->
  Re.matches (Re.any_of (map Re.literal ss)) m g g' -> In m ss.
Proof.
  induction ss as [|s [|s' ss] IH]; intros m g g' Hne M; [easy| |].
  - left. symmetry. eapply matches_literal, M.
  - cbn [map Re.any_of] in M, IH.
    inversion M as [| | | |? ? ? ? ? M1|? ? ? ? ? M2|]; subst; clear M.
    + left. symmetry. eapply matches_literal, M1.
    + right. eapply IH; [easy|exact M2].
Qed.

Lemma two_groups_texts alternatives sep m g :
  Re.groupless alternatives = true ->
  Re.matches
    (Re.Seq (Re.Group "mode" alternatives)
       (Re.Seq (Re.Chr sep) (Re.Group "filename" (Re.Plus Re.Any)))) m [] g ->
  exists f mode,
    g = [("filename", f); ("mode", mode)]
    ∧ Re.matches alternatives mode [] []
    ∧ f ≠ EmptyString ∧ one_line f.
Proof.
  intros G M.
  inversion M as [| | |? ? ? ? ? g1 ? M1 M2| | |]; subst; clear M.
  inversion M1 as [| | | | | |? ? ? ? g' M3]; subst; clear M1.
  pose proof (matches_groupless _ _ _ _ G M3) as ->.
  inversion M2 as [| | |? ? ? ? ? g2 ? M4 M5| | |]; subst; clear M2.
  inversion M4; subst; clear M4.
  inversion M5 as [| | | | | |? ? ? ? ? M6]; subst; clear M5.
  inversion M6; subst; clear M6.
  eexists _, _. repeat split; eassumption.
Qed.

Lemma status_pattern_texts tracked_only m g :
  Re.matches (status_pattern tracked_only) m [] g ->
  exists f mode,
    g = [("filename", f); ("mode", mode)]
    ∧ In mode (status_modes tracked_only) ∧ f ≠ EmptyString ∧ one_line f.
Proof.
  intros M. apply two_groups_texts in M; [|now destruct tracked_only].
  destruct M as (f & mode & -> & M & Hf & Hl). exists f, mode.
  repeat split; try assumption.
  eapply matches_any_of_literals, M. now destruct tracked_only.
Qed.

Lemma commit_pattern_texts m g :
  Re.matches commit_pattern m [] g ->
  exists f mode,
    g = [("filename", f); ("mode", mode)]
    ∧ (mode = "A" \/ mode = "M") ∧ f ≠ EmptyString ∧ one_line f.
Proof.
  intros M. apply two_groups_texts in M; [|reflexivity].
  destruct M as (f & mode & -> & M & Hf & Hl). exists f, mode.
  repeat split; try assumption.
  apply (matches_any_of_literals ["A"; "M"]) in M; [|easy].
  destruct M as [<-|[<-|[]]]; auto.
Qed.

Lemma pair_of_line_inv how root pattern post line k v :
  pair_of_line how root pattern post line = Some (k, v) ->
  exists g f mode,
    attempt how pattern line = Some g
    ∧ Re.group g "filename" = Some f ∧ Re.group g "mode" = Some mode
    ∧ k = Py.join root (_remove_filename_quotes f) ∧ v = post mode.
Proof.
  unfold pair_of_line. destruct (attempt how pattern line) as [g|]; [|easy].
  cbn [mbind option_bind].
  destruct (Re.group g "filename") as [f|] eqn:Ef; [|easy].
  cbn [mbind option_bind].
  destruct (Re.group g "mode") as [mode|] eqn:Em; [|easy].
  cbn [mbind option_bind].
  intros [= <- <-]. now exists g, f, mode.
Qed.

(** *** Keys and values of a map built from pairs *)

Lemma dict_from_lookup (pairs : list (string * string)) :
  forall (acc : gmap string string) k v,
    foldl (fun d kv => <[kv.1 := kv.2]> d) acc pairs !! k = Some v ->
    acc !! k = Some v \/ In (k, v) pairs.
Proof.
  induction pairs as [|[k' v'] pairs IH]; intros acc k v H; cbn [foldl] in H.
  - now left.
  - destruct (IH _ _ _ H) as [H'|H']; [|right; now right].
    cbn in H'. destruct (decide (k' = k)) as [->|Hne].
    + rewrite lookup_insert_eq in H'. injection H' as ->. right. now left.
    + rewrite lookup_insert_ne in H' by easy. now left.
Qed.

Lemma dict_lookup_In pairs k v : dict pairs !! k = Some v -> In (k, v) pairs.
Proof.
  intros H. destruct (dict_from_lookup _ _ _ _ H) as [H'|H']; [|exact H'].
  now rewrite lookup_empty in H'.
Qed.

Lemma startswith_char_inv a s :
  Py.startswith (String a EmptyString) s = true -> exists r, s = String a r.
Proof.
  unfold Py.startswith. destruct s as [|b s]; cbn; [easy|].
  destruct (ascii_dec a b) as [->|]; [eauto|easy].
Qed.

(** Joining onto an absolute root gives an absolute path. *)
Lemma isabs_join root name :
  Py.isabs root = true -> Py.isabs (Py.join root name) = true.
Proof.
  unfold Py.isabs, Py.join. intros H.
  destruct (Py.startswith "/" name) eqn:Hn; [exact Hn|].
  apply startswith_char_inv in H as [r ->].
  destruct (_ || _); rewrite append_cons; apply startswith_char.
Qed.

Lemma result_bind_inv {A B} (x : M A) (f : A -> M B) b :
  result (x ≫= f) = Ok b -> exists a, result x = Ok a ∧ result (f a) = Ok b.
Proof.
  destruct x as [[a|e] log]; [|discriminate].
  rewrite bind_Ok. cbn. eauto.
Qed.

Lemma mapM_result_In {A B} (f : A -> M B) (l : list A) : forall ys,
  result (mapM f l) = Ok ys ->
  forall y, In y ys -> exists x, In x l ∧ result (f x) = Ok y.
Proof.
  induction l as [|x l IH]; intros ys R y Hy; cbn [mapM] in R.
  - injection R as <-. destruct Hy.
  - apply result_bind_inv in R as (y0 & R0 & R).
    apply result_bind_inv in R as (ys0 & R1 & R).
    injection R as <-. destruct Hy as [<-|Hy].
    + exists x. split; [now left|exact R0].
    + destruct (IH _ R1 _ Hy) as (x' & ? & ?). exists x'. split; [now right|easy].
Qed.

Lemma last_status_In path ms : forall o v,
  foldl (fun o (m : gmap string string) =>
           match m !! path with Some v => Some v | None => o end) o ms
  = Some v ->
  o = Some v \/ exists m, In m ms ∧ m !! path = Some v.
Proof.
  induction ms as [|m ms IH]; intros o v H; cbn [foldl] in H; [now left|].
  destruct (IH _ _ H) as [H'|(m' & ? & ?)].
  - destruct (m !! path) eqn:E; [|now left].
    right. exists m. split; [now left|congruence].
  - right. exists m'. split; [now right|easy].
Qed.

Lemma merge_lookup_In ms path v :
  merge ms !! path = Some v -> exists m, In m ms ∧ m !! path = Some v.
Proof.
  rewrite lookup_merge. unfold last_status. intros H.
  destruct (last_status_In _ _ _ _ H) as [?|?]; [easy|assumption].
Qed.

(** An entry of a map built from lines comes from a line that matched. *)
Lemma dict_entry_inv how root pattern post lines k v :
  dict (omap (pair_of_line how root pattern post) lines) !! k = Some v ->
  exists line g f mode,
    In line lines
    ∧ Re.matches pattern g.1 [] g.2
    ∧ Re.group g.2 "filename" = Some f ∧ Re.group g.2 "mode" = Some mode
    ∧ k = Py.join root (_remove_filename_quotes f) ∧ v = post mode.
Proof.
  intros H. apply dict_lookup_In, list_elem_of_In, list_elem_of_omap in H.
  destruct H as (line & Hin & H). apply list_elem_of_In in Hin.
  apply pair_of_line_inv in H as (g & f & mode & Ha & Hf & Hm & -> & ->).
  destruct (attempt_sound _ _ _ _ Ha) as [m M].
  now exists line, (m, g), f, mode.
Qed.

(** X8. Read from the working tree with an absolute root, every entry of
    the map [modified_files] returns has an absolute path for key and, for
    value, one of the modes the pattern lists; with [tracked_only] no file
    is ever reported as untracked. *)
Theorem modified_files_status_entries :
  forall git how root tracked_only commits m,
    Py.isabs root = true ->
    commits = None \/ commits = Some [] ->
    result (modified_files git how root tracked_only commits) = Ok m ->
    forall k v,
      m !! k = Some v ->
      Py.isabs k = true
      ∧ In v (status_modes tracked_only)
      ∧ (tracked_only = true -> v ≠ "??").
Proof.
  intros git how root tracked_only commits m Habs Hc R k v Hkv.
  destruct (modified_files_status_inv _ _ _ _ _ _ Habs Hc R)
    as (out & _ & _ & ->).
  apply dict_entry_inv in Hkv
    as (line & [mt g] & f & mode & _ & M & Hf & Hm & -> & ->).
  apply status_pattern_texts in M as (f' & mode' & E & Hmode & _ & _).
  cbn [snd] in E, Hf, Hm. subst g. injection Hm as <-.
  split; [now apply isabs_join|]. split; [exact Hmode|].
  intros ->. cbn in Hmode. intros ->.
  repeat (destruct Hmode as [Hmode|Hmode]; [discriminate Hmode|]).
  destruct Hmode.
Qed.

Lemma modified_files_status_entries_witness :
  Py.isabs "/repo/src/a.py" = true
  ∧ In "M " (status_modes true)
  ∧ (true = true -> "M " ≠ "??").
Proof.
  apply (modified_files_status_entries repo_tree Anchored "/repo" true None
           (dict (map (entry_of "/repo" (fun m => m))
                    (removelast status_entries)))).
  - reflexivity.
  - now left.
  - vm_compute. reflexivity.
  - vm_compute. reflexivity.
Defined.

(** X9. Read from commits with an absolute root, every entry of the map
    [modified_files] returns has an absolute path for key and ["A "] or
    ["M "] for value: the one-letter status of diff-tree followed by a
    blank. *)
Theorem modified_files_commit_entries :
  forall git how root tracked_only commits m,
    Py.isabs root = true ->
    commits ≠ [] ->
    result (modified_files git how root tracked_only (Some commits)) = Ok m ->
    forall k v,
      m !! k = Some v -> Py.isabs k = true ∧ (v = "A " \/ v = "M ").
Proof.
  intros git how root tracked_only commits m Habs Hne R k v Hkv.
  destruct commits as [|c commits]; [easy|].
  rewrite modified_files_commits in R by exact Habs.
  apply result_bind_inv in R as (ms & Rms & R). injection R as <-.
  apply merge_lookup_In in Hkv as (m' & Hm' & Hkv).
  destruct (mapM_result_In _ _ _ Rms _ Hm') as (x & _ & Rx).
  apply modified_files_with_commit_inv in Rx as (out & _ & _ & ->).
  apply dict_entry_inv in Hkv
    as (line & [mt g] & f & mode & _ & M & Hf & Hm & -> & ->).
  apply commit_pattern_texts in M as (f' & mode' & E & Hmode & _ & _).
  cbn [snd] in E, Hf, Hm. subst g. injection Hm as <-.
  split; [now apply isabs_join|].
  destruct Hmode as [-> | ->]; auto.
Qed.

Lemma modified_files_commit_entries_witness :
  Py.isabs "/abs/b.py" = true ∧ ("M " = "A " \/ "M " = "M ").
Proof.
  apply (modified_files_commit_entries repo_broken Anywhere "/repo" false
           [commit1]
           (dict [("/repo/src/a.py", "A "); ("/abs/b.py", "M ")])).
  - reflexivity.
  - discriminate.
  - vm_compute. reflexivity.
  - vm_compute. reflexivity.
Defined.

(** ** Reading back what git lists *)

Lemma split_unlines ls :
  Forall one_line ls -> Py.split "010" (unlines ls) = ls ++ [EmptyString].
Proof.
  induction 1 as [|l ls Hl _ IH]; [reflexivity|].
  cbn [unlines app]. now rewrite (split_line_then _ _ Hl), IH.
Qed.

Lemma one_line_append s1 s2 : one_line s1 -> one_line s2 -> one_line (s1 +:+ s2).
Proof.
  unfold one_line. intros H1 H2. now rewrite chars_append, forallb_app, H1, H2.
Qed.

(** Listed lines that each match from their first character are read back
    as their entries; the empty text after the last line feed adds none. *)
Lemma entries_of_lines how root pattern post
    (line_of : string * string -> string) entries :
  Forall (fun e =>
            one_line (line_of e)
            ∧ Re.match_ pattern (line_of e)
              = Some [("filename", e.2); ("mode", e.1)]) entries ->
  attempt how pattern EmptyString = None ->
  omap (pair_of_line how root pattern post)
       (Py.split Py.linesep (unlines (map line_of entries)))
  = map (entry_of root post) entries.
Proof.
  intros H Hnil. unfold Py.linesep. rewrite split_unlines.
  - rewrite omap_app. cbn [omap list_omap].
    rewrite (pair_of_line_None _ _ _ _ _ Hnil), app_nil_r.
    induction H as [|e entries [_ He] _ IH]; [reflexivity|].
    cbn [map omap list_omap].
    rewrite (pair_of_line_Some how root pattern post _ _ _
               (attempt_of_match how _ _ _ He)).
    now rewrite IH.
  - induction H as [|e entries [He _] _ IH]; constructor; assumption.
Qed.

(** A diff-tree line made of [A] or [M], a tab and a name matches from its
    first character. *)
Lemma diff_tree_line_match mode f :
  mode = "A" \/ mode = "M" ->
  f ≠ EmptyString -> one_line f ->
  Re.match_ commit_pattern (mode +:+ TAB +:+ f)
  = Some [("filename", f); ("mode", mode)].
Proof.
  intros Hmode Hne Hall. unfold Re.match_, TAB.
  destruct Hmode as [-> | ->];
    rewrite !append_cons, !append_nil_l; cbn;
    erewrite plus_takes_all; try reflexivity; try assumption.
Qed.

Lemma one_line_mode tracked_only mode :
  In mode (status_modes tracked_only) -> one_line mode.
Proof.
  destruct tracked_only; cbn; intros H;
    repeat (destruct H as [<-|H]; [reflexivity|]); destruct H.
Qed.

(** X10. Read from the working tree, [modified_files] returns exactly the
    files the status output lists: for lines made of a listed mode, a
    blank and a name, the map is the one built from these entries in
    order, each name stripped of surrounding quotes and joined to the
    root, each mode kept as printed. *)
Theorem modified_files_reads_status :
  forall git how root tracked_only commits entries,
    Py.isabs root = true ->
    commits = None \/ commits = Some [] ->
    Forall (fun e => In e.1 (status_modes tracked_only)
                     ∧ e.2 ≠ EmptyString ∧ one_line e.2) entries ->
    git status_porcelain = Exited 0 (unlines (map status_line entries)) ->
    Py.utf8_valid (unlines (map status_line entries)) = true ->
    modified_files git how root tracked_only commits
    = (Ok (dict (map (entry_of root (fun m => m)) entries)),
       [status_porcelain]).
Proof.
  intros git how root tracked_only commits entries Habs Hc He Hgit Hutf.
  rewrite (modified_files_status_returns _ _ _ _ _ _ Habs Hc Hgit Hutf).
  rewrite (entries_of_lines how root (status_pattern tracked_only)
             (fun m => m) status_line); [reflexivity| |].
  - eapply Forall_impl; [exact He|]. intros [mode f] (Hm & Hf & Hl).
    cbn [fst snd] in *. unfold status_line. cbn [fst snd]. split.
    + apply one_line_append; [now apply (one_line_mode tracked_only)|].
      now apply one_line_append.
    + now apply status_line_match.
  - destruct how, tracked_only; reflexivity.
Qed.

Lemma modified_files_reads_status_witness :
  modified_files repo_tree Anywhere "/repo" false (Some [])
  = (Ok (dict [("/repo/src/a.py", "M "); ("/repo/src/b.py", " M");
               ("/repo/weird name.txt", "A "); ("/repo/notes.txt", "??")]),
     [status_porcelain]).
Proof.
  apply (modified_files_reads_status repo_tree Anywhere "/repo" false (Some [])
           status_entries).
  - reflexivity.
  - now right.
  - repeat constructor; cbn; tauto || discriminate.
  - reflexivity.
  - reflexivity.
Defined.

(** X11. [_modified_files_with_commit] returns exactly the added and
    modified files diff-tree lists: for lines made of [A] or [M], a tab and
    a name, the map is the one built from these entries, each status
    followed by a blank; through [modified_files], a single commit gives
    that same map. *)
Theorem modified_files_reads_diff_tree :
  forall git how root tracked_only commit entries,
    Py.isabs root = true ->
    Forall (fun e => (e.1 = "A" \/ e.1 = "M")
                     ∧ e.2 ≠ EmptyString ∧ one_line e.2) entries ->
    git (diff_tree commit) = Exited 0 (unlines (map diff_tree_line entries)) ->
    Py.utf8_valid (unlines (map diff_tree_line entries)) = true ->
    _modified_files_with_commit git how root commit
    = (Ok (dict (map (entry_of root (fun m => m +:+ " ")) entries)),
       [diff_tree commit])
    ∧ modified_files git how root tracked_only (Some [commit])
      = (Ok (dict (map (entry_of root (fun m => m +:+ " ")) entries)),
         [diff_tree commit]).
Proof.
  intros git how root tracked_only commit entries Habs He Hgit Hutf.
  assert (E : _modified_files_with_commit git how root commit
              = (Ok (dict (map (entry_of root (fun m => m +:+ " ")) entries)),
                 [diff_tree commit])).
  { rewrite (modified_files_with_commit_value _ _ _ _ _ Hgit Hutf).
    rewrite (entries_of_lines how root commit_pattern
               (fun m => m +:+ " ") diff_tree_line); [reflexivity| |].
    - eapply Forall_impl; [exact He|]. intros [mode f] (Hm & Hf & Hl).
      cbn [fst snd] in *. unfold diff_tree_line. cbn [fst snd]. split.
      + apply one_line_append; [now destruct Hm as [-> | ->]|].
        now apply one_line_append.
      + now apply diff_tree_line_match.
    - destruct how; reflexivity. }
  split; [exact E|].
  rewrite modified_files_commits by exact Habs. cbn [mapM].
  rewrite E, !bind_Ok. cbn. unfold merge. cbn [foldl].
  now rewrite (right_id_L ∅ (∪)).
Qed.

Lemma modified_files_reads_diff_tree_witness :
  _modified_files_with_commit repo_broken Anchored "/repo" commit1
  = (Ok (dict [("/repo/src/a.py", "A "); ("/abs/b.py", "M ")]),
     [diff_tree commit1])
  ∧ modified_files repo_broken Anchored "/repo" true (Some [commit1])
    = (Ok (dict [("/repo/src/a.py", "A "); ("/abs/b.py", "M ")]),
       [diff_tree commit1]).
Proof.
  apply (modified_files_reads_diff_tree repo_broken Anchored "/repo" true
           commit1 [("A", "src/a.py"); ("M", "/abs/b.py")]).
  - reflexivity.
  - repeat constructor; cbn; tauto || discriminate.
  - reflexivity.
  - reflexivity.
Defined.

(** ** Lines attributed to given commits *)

Lemma numbers_of_fields how sha lines :
  map Py.decimal (omap (line_field how sha) lines)
  = omap (line_number how sha) lines.
Proof.
  induction lines as [|l lines IH]; [reflexivity|].
  cbn [omap list_omap]. rewrite line_number_field.
  destruct (line_field how sha l); cbn [fmap option_fmap option_map map];
    now rewrite IH.
Qed.

(** In lines that [int] could convert whole, every field is short
    enough. *)
Lemma short_lines_convertible how sha lines :
  Forall (fun l => String.length l <= Py.max_str_digits) lines ->
  forallb convertible (omap (line_field how sha) lines) = true.
Proof.
  induction 1 as [|l lines Hl _ IH]; [reflexivity|].
  cbn [omap list_omap]. destruct (line_field how sha l) as [v|] eqn:E;
    [|exact IH].
  cbn [forallb]. rewrite IH, andb_true_r. unfold convertible.
  apply Nat.leb_le. destruct (line_field_inv _ _ _ _ E) as (_ & _ & _ & L). lia.
Qed.

(** X12. With any of the three statuses that run blame and a commit given
    as a revision id, [modified_lines] runs the same blame on the file (the
    commit is not passed to git) and returns, in order, the numbers of the
    lines matching that id, unless a field is too long for [int], which
    raises [ValueError]; when the output consists of headers of that commit
    with the numbers [ns] and of lines in which the id does not occur, it
    returns [ns]. *)
Theorem modified_lines_of_commit :
  forall git how filename status commit out,
    status = "M " \/ status = " M" \/ status = "MM" ->
    revision commit ->
    git (blame_porcelain filename) = Exited 0 out ->
    modified_lines git how filename (Some status) (Some commit)
    = (if forallb convertible
            (omap (line_field how commit) (Py.split Py.linesep out))
       then Ok (Some (omap (line_number how commit)
                           (Py.split Py.linesep out)))
       else Raise ValueError,
       [blame_porcelain filename])
    ∧ forall ns,
        blame_entries commit (Py.split Py.linesep out) ns ->
        modified_lines git how filename (Some status) (Some commit)
        = (Ok (Some ns), [blame_porcelain filename]).
Proof.
  intros git how filename status commit out Hst _ E.
  assert (Hm : is_modification status = true)
    by (destruct Hst as [-> | [-> | ->]]; reflexivity).
  rewrite (modified_lines_blame _ _ _ _ (Some commit) _ Hm E). cbv iota.
  split; [now rewrite numbers_of_fields|]. intros ns Hns.
  destruct (entries_fields how _ _ _ Hns) as [-> ->]. reflexivity.
Qed.

(** Line 5 of [src/f.py], as [commit2] left it. *)
Lemma modified_lines_of_commit_witness :
  modified_lines repo_two_commits Anywhere "src/f.py" (Some " M") (Some commit2)
  = (Ok (Some [5%Z]), [blame_porcelain "src/f.py"]).
Proof.
  assert (R : revision commit2) by (split; [discriminate|reflexivity]).
  apply (modified_lines_of_commit repo_two_commits Anywhere "src/f.py" " M"
           commit2 blame_two_commits (or_intror (or_introl eq_refl)) R eq_refl).
  change (Py.split Py.linesep blame_two_commits)
    with [commit1 +:+ " 5 5 1";
          TAB +:+ "a";
          commit2 +:+ " " +:+ "5" +:+ " " +:+ "6" +:+ " 1";
          TAB +:+ "b";
          ""].
  do 2 (apply entries_other; [apply not_contains; vm_compute; reflexivity|]).
  apply (entries_header commit2 "5" "6" " 1" _ []);
    [split; [discriminate|reflexivity]
    |unfold Py.max_str_digits; cbn; lia
    |split; [discriminate|reflexivity]|].
  do 2 (apply entries_other; [apply not_contains; vm_compute; reflexivity|]).
  apply entries_nil.
Defined.

Lemma aggregate_all_Some (ls : list (list Z)) :
  aggregate (map Some ls) = concat ls.
Proof.
  induction ls as [|l ls IH]; [reflexivity|].
  cbn [map concat]. rewrite aggregate_cons, IH. now destruct l.
Qed.

Lemma mapM_all_Ok {A B} (f : A -> M B) (g : A -> B) (c0 : call) l :
  (forall x, f x = (Ok (g x), [c0])) ->
  mapM f l = (Ok (map g l), replicate (length l) c0).
Proof.
  intros H. induction l as [|x l IH]; [reflexivity|].
  cbn [mapM map length replicate]. rewrite H, bind_Ok, IH, bind_Ok. cbn.
  now rewrite app_nil_r.
Qed.

(** X13. When blame succeeds on a file whose status runs it and prints no
    line longer than what [int] converts, [modified_lines_for_pr] runs it
    once per commit, every time on the same file, and returns, commit
    after commit in the order given, the numbers of the lines matching that
    commit. *)
Theorem modified_lines_for_pr_per_commit :
  forall git how filename status commits out,
    is_modification status = true ->
    Forall revision commits ->
    git (blame_porcelain filename) = Exited 0 out ->
    Forall (fun l => String.length l <= Py.max_str_digits)
           (Py.split Py.linesep out) ->
    modified_lines_for_pr git how filename (Some status) commits
    = (Ok (concat (map (fun c => omap (line_number how c)
                                   (Py.split Py.linesep out)) commits)),
       replicate (length commits) (blame_porcelain filename)).
Proof.
  intros git how filename status commits out Hst _ E Hshort.
  unfold modified_lines_for_pr. rewrite for_pr_loop.
  rewrite (mapM_all_Ok _
             (fun c => Some (omap (line_number how c) (Py.split Py.linesep out)))
             (blame_porcelain filename)).
  - rewrite bind_Ok. cbn [result calls fst snd mret M_ret app].
    rewrite app_nil_r, <- (map_map _ Some), aggregate_all_Some. reflexivity.
  - intros c. rewrite (modified_lines_blame _ _ _ _ (Some c) _ Hst E).
    cbv iota. now rewrite (short_lines_convertible _ _ _ Hshort),
                numbers_of_fields.
Qed.

Lemma modified_lines_for_pr_per_commit_witness :
  modified_lines_for_pr repo_two_commits Anchored "src/f.py" (Some "MM")
    [commit2; commit1; commit2]
  = (Ok [5%Z; 5%Z; 5%Z],
     [blame_porcelain "src/f.py"; blame_porcelain "src/f.py";
      blame_porcelain "src/f.py"]).
Proof.
  assert (R : Forall revision [commit2; commit1; commit2])
    by (repeat constructor; discriminate).
  assert (S : Forall (fun l => String.length l <= Py.max_str_digits)
                (Py.split Py.linesep blame_two_commits)).
  { change (Py.split Py.linesep blame_two_commits)
      with [commit1 +:+ " 5 5 1"; TAB +:+ "a"; commit2 +:+ " 5 6 1";
            TAB +:+ "b"; ""].
    unfold Py.max_str_digits. repeat constructor; cbn; lia. }
  exact (modified_lines_for_pr_per_commit repo_two_commits Anchored "src/f.py"
           "MM" [commit2; commit1; commit2] blame_two_commits
           eq_refl R eq_refl S).
Defined.

(** ** Quotes around a file name *)

Lemma endswith_inv p s :
  Py.endswith p s = true -> exists pre, s = pre +:+ p.
Proof.
  induction s as [|a s IH].
  - destruct p; [now exists EmptyString|discriminate].
  - change (Py.endswith p (String a s))
      with (String.eqb (String a s) p || Py.endswith p s).
    intros H. apply orb_prop in H as [H|H].
    + apply String.eqb_eq in H as <-. now exists EmptyString.
    + destruct (IH H) as [pre ->]. now exists (String a pre).
Qed.

(** X14. [_remove_filename_quotes] changes a name only when it begins and
    ends with a double quote: it then returns the text between the two
    quotes untouched (nothing, for a name that is one quote alone); any
    other name, a quote at one end only included, is returned as it is. *)
Theorem remove_filename_quotes_cases :
  forall filename,
    (exists body,
       filename = dquote +:+ body +:+ dquote
       ∧ _remove_filename_quotes filename = body)
    \/ (filename = dquote ∧ _remove_filename_quotes filename = EmptyString)
    \/ (Py.startswith dquote filename && Py.endswith dquote filename = false
        ∧ _remove_filename_quotes filename = filename).
Proof.
  intros filename.
  destruct (Py.startswith dquote filename && Py.endswith dquote filename)
    eqn:E.
  - apply andb_prop in E as [Hs He].
    apply startswith_char_inv in Hs as [r ->].
    apply endswith_inv in He as [[|a pre] He].
    + right. left. rewrite append_nil_l in He. now rewrite He.
    + left. exists pre. rewrite append_cons in He. injection He as <- ->.
      split; [reflexivity|]. apply remove_filename_quotes_wrapped.
  - right. right. split; [reflexivity|].
    unfold _remove_filename_quotes. now rewrite E.
Qed.

(** ** An empty log, then the modified files *)

(** X15. The list [commits_head_to_main] returns for an empty log counts as
    a list of commits for [modified_files]: given that list,
    [modified_files] runs diff-tree on the empty revision and never asks
    for the status of the working tree; when git rejects the empty
    revision, the exception reaches the caller. *)
Theorem empty_log_is_taken_as_a_commit :
  forall git how root tracked_only master,
    git (log_to_head master) = Exited 0 EmptyString ->
    Py.isabs root = true ->
    calls (commits ← commits_head_to_main git master;
           modified_files git how root tracked_only (Some commits))
    = [log_to_head master; diff_tree EmptyString]
    ∧ (invocation_fails (git (diff_tree EmptyString)) ->
       result (commits ← commits_head_to_main git master;
               modified_files git how root tracked_only (Some commits))
       = Raise (exn_of (git (diff_tree EmptyString)))).
Proof.
  intros git how root tracked_only master E Habs.
  assert (C : commits_head_to_main git master
              = (Ok [EmptyString], [log_to_head master])).
  { unfold commits_head_to_main. now rewrite (check_output_zero _ _ _ E). }
  rewrite C, bind_Ok, modified_files_commits by exact Habs.
  cbn [mapM]. split.
  - pose proof (calls_modified_files_with_commit git how root EmptyString)
      as L.
    destruct (_modified_files_with_commit git how root EmptyString)
      as [[m|e] log]; cbn in L; subst log; reflexivity.
  - intros Hfail.
    now rewrite (modified_files_with_commit_fails _ _ _ _ Hfail).
Qed.

Lemma empty_log_is_taken_as_a_commit_witness :
  calls (commits ← commits_head_to_main repo_at_main "main";
         modified_files repo_at_main Anywhere "/repo" false (Some commits))
  = [log_to_head "main"; diff_tree EmptyString]
  ∧ (invocation_fails (repo_at_main (diff_tree EmptyString)) ->
     result (commits ← commits_head_to_main repo_at_main "main";
             modified_files repo_at_main Anywhere "/repo" false (Some commits))
     = Raise (exn_of (repo_at_main (diff_tree EmptyString)))).
Proof.
  apply (empty_log_is_taken_as_a_commit repo_at_main Anywhere "/repo" false
           "main"); reflexivity.
Defined.

(** ** Whatever the output holds *)

Lemma decimal_from_nonneg (l : list ascii) : forall acc,
  (0 <= acc)%Z -> forallb Py.is_digit l = true ->
  (0 <= fold_left (fun acc a => (10 * acc + Py.digit_value a)%Z) l acc)%Z.
Proof.
  induction l as [|a l IH]; intros acc Hacc H; cbn [fold_left]; [exact Hacc|].
  cbn in H. apply andb_prop in H as [Ha H]. apply IH; [|exact H].
  unfold Py.is_digit, Py.between in Ha.
  rewrite andb_true_iff, !N.leb_le in Ha. unfold Py.digit_value. lia.
Qed.

Lemma length_omap_le {A B} (f : A -> option B) (l : list A) :
  length (omap f l) <= length l.
Proof.
  induction l as [|x l IH]; cbn [omap list_omap length]; [lia|].
  destruct (f x); cbn [length]; lia.
Qed.

Lemma forallb_false {A} (f : A -> bool) (l : list A) :
  forallb f l = false -> exists x, In x l ∧ f x = false.
Proof.
  induction l as [|x l IH]; cbn [forallb]; [discriminate|].
  destruct (f x) eqn:E.
  - intros H. destruct (IH H) as (y & ? & ?). exists y. split; [now right|easy].
  - intros _. exists x. split; [now left|exact E].
Qed.

(** X16. Blame output is read as bytes and never decoded: whenever blame
    succeeds, whatever bytes it prints, [modified_lines] with a status that
    runs it either returns a list, with at most one number per line of
    output and none negative, or raises [ValueError]; the latter only when
    a line is longer than what [int] converts, so that output of shorter
    lines always yields a list. *)
Theorem modified_lines_reads_any_output :
  forall git how filename status commit out,
    is_modification status = true ->
    match commit with Some c => revision c | None => True end ->
    git (blame_porcelain filename) = Exited 0 out ->
    ((exists nums,
        modified_lines git how filename (Some status) commit
        = (Ok (Some nums), [blame_porcelain filename])
        ∧ length nums <= length (Py.split Py.linesep out)
        ∧ Forall (fun n => (0 <= n)%Z) nums)
     \/ (modified_lines git how filename (Some status) commit
         = (Raise ValueError, [blame_porcelain filename])
         ∧ Exists (fun l => Py.max_str_digits < String.length l)
                  (Py.split Py.linesep out)))
    ∧ (Forall (fun l => String.length l <= Py.max_str_digits)
              (Py.split Py.linesep out) ->
       exists nums,
         modified_lines git how filename (Some status) commit
         = (Ok (Some nums), [blame_porcelain filename])).
Proof.
  intros git how filename status commit out Hst _ E.
  rewrite (modified_lines_blame _ _ _ _ commit _ Hst E).
  set (sha := match commit with Some c => c | None => zero40 end).
  split.
  - destruct (forallb convertible _) eqn:C.
    + left. eexists. split; [reflexivity|]. split.
      * rewrite length_map. apply length_omap_le.
      * apply Forall_forall. intros n Hn.
        apply list_elem_of_fmap in Hn as (v & -> & Hv).
        apply list_elem_of_omap in Hv as (line & _ & Hv).
        destruct (line_field_inv _ _ _ _ Hv) as (_ & [_ Hd] & _).
        now apply decimal_from_nonneg.
    + right. split; [reflexivity|].
      apply forallb_false in C as (v & Hv & C).
      apply list_elem_of_In, list_elem_of_omap in Hv as (line & Hl & Hv).
      apply Exists_exists. exists line. split; [exact Hl|].
      destruct (line_field_inv _ _ _ _ Hv) as (_ & _ & _ & L).
      unfold convertible in C. apply Nat.leb_gt in C. lia.
  - intros Hshort. rewrite (short_lines_convertible _ _ _ Hshort). eauto.
Qed.

(** A file that is not UTF-8 has its two uncommitted lines returned. *)
Lemma modified_lines_reads_any_output_witness :
  Py.utf8_valid blame_latin1 = false
  ∧ modified_lines repo_latin1_file Anywhere "menu.txt" (Some "M ") None
    = (Ok (Some [1%Z; 2%Z]), [blame_porcelain "menu.txt"])
  ∧ ((exists nums,
        modified_lines repo_latin1_file Anywhere "menu.txt" (Some "M ") None
        = (Ok (Some nums), [blame_porcelain "menu.txt"])
        ∧ length nums <= length (Py.split Py.linesep blame_latin1)
        ∧ Forall (fun n => (0 <= n)%Z) nums)
     \/ (modified_lines repo_latin1_file Anywhere "menu.txt" (Some "M ") None
         = (Raise ValueError, [blame_porcelain "menu.txt"])
         ∧ Exists (fun l => Py.max_str_digits < String.length l)
                  (Py.split Py.linesep blame_latin1))).
Proof.
  split; [reflexivity|]. split; [vm_compute; reflexivity|].
  apply (modified_lines_reads_any_output repo_latin1_file Anywhere "menu.txt"
           "M " None blame_latin1).
  - reflexivity.
  - exact I.
  - reflexivity.
Defined.

Lemma size_dict_from (pairs : list (string * string)) :
  forall acc : gmap string string,
    size (foldl (fun d kv => <[kv.1 := kv.2]> d) acc pairs)
    <= size acc + length pairs.
Proof.
  induction pairs as [|[k v] pairs IH]; intros acc; cbn [foldl length]; [lia|].
  etransitivity; [apply IH|]. cbn [fst snd].
  destruct (acc !! k) eqn:E.
  - rewrite map_size_insert_Some by eauto. lia.
  - rewrite map_size_insert_None by exact E. lia.
Qed.

Lemma size_dict pairs : size (dict pairs) <= length pairs.
Proof.
  unfold dict. etransitivity; [apply size_dict_from|].
  now rewrite map_size_empty.
Qed.

(** X17. When the status command succeeds, [modified_files] decodes its
    output: if it is UTF-8 a map is returned whatever the lines are, those
    that do not match being skipped; if it is not, [UnicodeDecodeError] is
    raised.  One command is run in both cases. *)
Theorem modified_files_status_decodes :
  forall git how root tracked_only commits out,
    Py.isabs root = true ->
    commits = None \/ commits = Some [] ->
    git status_porcelain = Exited 0 out ->
    (Py.utf8_valid out = true ->
     exists m,
       modified_files git how root tracked_only commits
       = (Ok m, [status_porcelain])
       ∧ size m <= length (Py.split Py.linesep out))
    ∧ (Py.utf8_valid out = false ->
       modified_files git how root tracked_only commits
       = (Raise UnicodeDecodeError, [status_porcelain])).
Proof.
  intros git how root tracked_only commits out Habs Hc Hgit. split.
  - intros Hutf. eexists.
    split; [exact (modified_files_status_returns _ _ _ _ _ _ Habs Hc Hgit Hutf)|].
    etransitivity; [apply size_dict|apply length_omap_le].
  - intros Hutf. unfold modified_files, assert. rewrite Habs, bind_ret_l.
    destruct Hc as [-> | ->]; cbn [truthy];
      rewrite (check_output_zero _ _ _ Hgit), bind_Ok;
      unfold decode_utf8; now rewrite Hutf.
Qed.

Lemma modified_files_status_decodes_witness :
  (Py.utf8_valid (unlines (map status_line status_entries)) = true ->
   exists m,
     modified_files repo_tree Anchored "/repo" false None
     = (Ok m, [status_porcelain])
     ∧ size m
       <= length (Py.split Py.linesep (unlines (map status_line status_entries))))
  ∧ (Py.utf8_valid (unlines (map status_line status_entries)) = false ->
     modified_files repo_tree Anchored "/repo" false None
     = (Raise UnicodeDecodeError, [status_porcelain])).
Proof.
  apply (modified_files_status_decodes repo_tree Anchored "/repo" false None
           (unlines (map status_line status_entries))).
  - reflexivity.
  - now left.
  - reflexivity.
Defined.
